(** * BRC-104 cross-language tests: nonce assembly, key identifiers and
      BRC-42 key derivation

    A shallow embedding of the shared test constants ([constants.ts],
    [constants.go]), of the signature-data helpers of
    [test_brc104_signatures.ts], and of the key-derivation code recorded in
    [KEY_DERIVATION_BUG_REPORT.md], together with the properties the
    specification states about them.

    Bytes are integers in the range 0..255 held in [list Z] (the TypeScript
    [number[]] and the Go [[]byte]); strings are [string]; the elliptic curve and
    the HMAC are an interface ([Provider]) with the group laws the derivation
    relies on ([CurveLaws]). *)

From Stdlib Require Import ZArith List String Ascii Bool Lia.
Import ListNotations.

Local Open Scope string_scope.
Local Open Scope list_scope.
Local Open Scope Z_scope.

(** ** Shared constants (constants.ts / constants.go) *)

Module Constants.

Definition TEST_PRIVATE_KEY_WIF : string :=
  "L4B2postXdaP7TiUrUBYs53Fqzheu7WhSoQVPuY8qBdoBeEwbmZx".

(** Test nonces, 32 bytes each, Base64 encoded. *)
Definition INITIAL_NONCE_B64 : string :=
  "QUFBQUFBQUFBQUFBQUFBQUFBQUFBQUFBQUFBQUFBQUE=".
Definition SESSION_NONCE_B64 : string :=
  "QkJCQkJCQkJCQkJCQkJCQkJCQkJCQkJCQkJCQkJCQkI=".

Definition INITIAL_NONCE_BYTES : list Z :=
  [65;65;65;65;65;65;65;65;65;65;65;65;65;65;65;65;
   65;65;65;65;65;65;65;65;65;65;65;65;65;65;65;65].
Definition SESSION_NONCE_BYTES : list Z :=
  [66;66;66;66;66;66;66;66;66;66;66;66;66;66;66;66;
   66;66;66;66;66;66;66;66;66;66;66;66;66;66;66;66].

(** Security level 2, protocol name. *)
Definition PROTOCOL_ID : Z * string := (2, "auth message signature").

(** [makeKeyId] of constants.ts is the template literal
    [`${initialNonce} ${sessionNonce}`]: the cooked pieces [""], [" "], [""]
    interleaved with the two substitutions. *)
Definition makeKeyId (initialNonce sessionNonce : string) : string :=
  ("" ++ initialNonce ++ " " ++ sessionNonce ++ "")%string.

(** [MakeKeyId] of constants.go: [initialNonce + " " + sessionNonce], which Go
    associates to the left. *)
Definition MakeKeyId (initialNonce sessionNonce : string) : string :=
  ((initialNonce ++ " ") ++ sessionNonce)%string.

Definition TEST_COUNTERPARTY_KEY : string :=
  "0279be667ef9dcbbac55a06295ce870b07029bfcdb2dce28d959f2815b16f81798".

(** For signing: initial nonce bytes, then session nonce bytes. *)
Definition EXPECTED_SIG_DATA_SIGNING : list Z :=
  [65;65;65;65;65;65;65;65;65;65;65;65;65;65;65;65;
   65;65;65;65;65;65;65;65;65;65;65;65;65;65;65;65;
   66;66;66;66;66;66;66;66;66;66;66;66;66;66;66;66;
   66;66;66;66;66;66;66;66;66;66;66;66;66;66;66;66].
(** For verification: session nonce bytes, then initial nonce bytes. *)
Definition EXPECTED_SIG_DATA_VERIFICATION : list Z :=
  [66;66;66;66;66;66;66;66;66;66;66;66;66;66;66;66;
   66;66;66;66;66;66;66;66;66;66;66;66;66;66;66;66;
   65;65;65;65;65;65;65;65;65;65;65;65;65;65;65;65;
   65;65;65;65;65;65;65;65;65;65;65;65;65;65;65;65].

End Constants.

(** ** Reading a key identifier back *)

Module KeyId.

Definition space : ascii := " "%char.

Fixpoint contains_space (s : string) : bool :=
  match s with
  | EmptyString => false
  | String c rest => Ascii.eqb c space || contains_space rest
  end.

Fixpoint count_spaces (s : string) : nat :=
  match s with
  | EmptyString => 0%nat
  | String c rest =>
      ((if Ascii.eqb c space then 1 else 0) + count_spaces rest)%nat
  end.

(** The parts before and after the first space, if there is one. *)
Fixpoint split_at_space (s : string) : option (string * string) :=
  match s with
  | EmptyString => None
  | String c rest =>
      if Ascii.eqb c space then Some (EmptyString, rest)
      else
        match split_at_space rest with
        | Some (before, after) => Some (String c before, after)
        | None => None
        end
  end.

End KeyId.

(** ** Base64 as the Node runtime decodes it

    [Buffer.from(s, 'base64')] never throws on a string: characters outside the
    alphabet (the URL-safe [-] and [_] are accepted too) are skipped, and
    decoding stops at the first padding character [=].  Sextets are consumed in
    groups of four; a byte is emitted as soon as the second, third and fourth
    sextet of a group is read. *)

Module Base64.

Definition is_byte (b : Z) : Prop := 0 <= b < 256.

Definition base64_alphabet : string :=
  "ABCDEFGHIJKLMNOPQRSTUVWXYZabcdefghijklmnopqrstuvwxyz0123456789+/".

Definition pad : ascii := "="%char.

(** The value of a Base64 character, [None] for any other character. *)
Definition unbase64 (c : ascii) : option Z :=
  let n := Z.of_N (N_of_ascii c) in
  if (65 <=? n) && (n <=? 90) then Some (n - 65)
  else if (97 <=? n) && (n <=? 122) then Some (n - 71)
  else if (48 <=? n) && (n <=? 57) then Some (n + 4)
  else if (n =? 43) || (n =? 45) then Some 62
  else if (n =? 47) || (n =? 95) then Some 63
  else None.

(** The three bytes of a group, from consecutive sextets [hi], [lo]. *)
Definition byte1 (hi lo : Z) : Z :=
  Z.lor (Z.shiftl (Z.land hi 63) 2) (Z.shiftr (Z.land lo 48) 4).
Definition byte2 (hi lo : Z) : Z :=
  Z.lor (Z.shiftl (Z.land hi 15) 4) (Z.shiftr (Z.land lo 60) 2).
Definition byte3 (hi lo : Z) : Z :=
  Z.lor (Z.shiftl (Z.land hi 3) 6) (Z.shiftr (Z.land lo 63) 0).

(** [phase] counts the sextets already read in the current group, [hi] is the
    previous sextet. *)
Fixpoint decode_from (phase : nat) (hi : Z) (src : string) : list Z :=
  match src with
  | EmptyString => []
  | String c rest =>
      match unbase64 c with
      | Some lo =>
          match phase with
          | 0%nat => decode_from 1 lo rest
          | 1%nat => byte1 hi lo :: decode_from 2 lo rest
          | 2%nat => byte2 hi lo :: decode_from 3 lo rest
          | _ => byte3 hi lo :: decode_from 0 lo rest
          end
      | None =>
          if Ascii.eqb c pad then [] else decode_from phase hi rest
      end
  end.

(** [Array.from(Buffer.from(data, 'base64'))]. *)
Definition decode (data : string) : list Z := decode_from 0 0 data.

(** The character of a sextet. *)
Definition b64char (s : Z) : ascii :=
  match String.get (Z.to_nat s) base64_alphabet with
  | Some c => c
  | None => pad
  end.

(** The four sextets of three bytes [a], [b], [c]. *)
Definition sextet1 (a : Z) : Z := a / 4.
Definition sextet2 (a b : Z) : Z := a mod 4 * 16 + b / 16.
Definition sextet3 (b c : Z) : Z := b mod 16 * 4 + c / 64.
Definition sextet4 (c : Z) : Z := c mod 64.

(** Standard Base64 with padding (RFC 4648, section 4): what "a Base64-encoded
    nonce" is.  Three bytes give four characters; one or two trailing bytes
    are completed with zero bits and give two or three characters and
    padding. *)
Fixpoint encode (bytes : list Z) : string :=
  match bytes with
  | [] => EmptyString
  | [a] =>
      String (b64char (sextet1 a)) (String (b64char (sextet2 a 0))
        (String pad (String pad EmptyString)))
  | [a; b] =>
      String (b64char (sextet1 a)) (String (b64char (sextet2 a b))
        (String (b64char (sextet3 b 0)) (String pad EmptyString)))
  | a :: b :: c :: rest =>
      String (b64char (sextet1 a)) (String (b64char (sextet2 a b))
        (String (b64char (sextet3 b c)) (String (b64char (sextet4 c))
          (encode rest))))
  end.

(** Byte lists as the runtime holds them: every element in 0..255. *)
Definition is_byteb (b : Z) : bool := (0 <=? b) && (b <? 256).
Definition bytes_ok (bytes : list Z) : bool := forallb is_byteb bytes.

(** The 64 sextets, and a comparison used to check tables exhaustively. *)
Definition sextets : list Z := map Z.of_nat (seq 0 64).

Definition option_Z_eqb (o : option Z) (z : Z) : bool :=
  match o with
  | Some v => v =? z
  | None => false
  end.


End Base64.

(** ** The runtime and the helpers of test_brc104_signatures.ts *)

Module Signatures.

(** The [Buffer] constructor, as far as the helpers use it:
    [Array.from(BufferCtor.from(data, 'base64'))]. *)
Record BufferCtor : Type := { from_base64 : string -> list Z }.

(** The global object; [Buffer] is undefined outside Node. *)
Record GlobalThis : Type := { Buffer : option BufferCtor }.

(** [typeof globalThis !== 'undefined' ? globalThis.Buffer : undefined] *)
Definition BufferCtor_of (globalThis : option GlobalThis) : option BufferCtor :=
  match globalThis with
  | Some g => Buffer g
  | None => None
  end.

(** The Node runtime the test suites run on. *)
Definition node : option GlobalThis :=
  Some {| Buffer := Some {| from_base64 := Base64.decode |} |}.


Definition buggyBase64ToBytes (globalThis : option GlobalThis) (data : string)
  : list Z :=
  match BufferCtor_of globalThis with
  | Some B => from_base64 B data
  | None => []
  end.

Definition correctSignatureDataPrep (globalThis : option GlobalThis)
  (nonce1 nonce2 : string) : list Z :=
  match BufferCtor_of globalThis with
  | Some B =>
      let bytes1 := from_base64 B nonce1 in
      let bytes2 := from_base64 B nonce2 in
      bytes1 ++ bytes2
  | None => []
  end.

(** The two directions of the handshake (the fixed [Peer.ts] of the README):
    signing decodes the initial nonce then the session nonce, verification the
    session nonce then the initial nonce. *)
Definition signingData (g : option GlobalThis) (initialNonce sessionNonce : string)
  : list Z :=
  correctSignatureDataPrep g initialNonce sessionNonce.

Definition verificationData (g : option GlobalThis)
  (initialNonce sessionNonce : string) : list Z :=
  correctSignatureDataPrep g sessionNonce initialNonce.

(** The historical defect: the two encoded strings concatenated, then decoded
    once ([Peer.base64ToBytes(message.initialNonce + sessionNonce)]). *)
Definition buggySignatureData (g : option GlobalThis)
  (initialNonce sessionNonce : string) : list Z :=
  buggyBase64ToBytes g (initialNonce ++ sessionNonce)%string.

End Signatures.

(** ** Key derivation (BRC-42/43)

    The test programs call [KeyDeriver.derivePrivateKey] and
    [KeyDeriver.derivePublicKey] of the SDKs; the bug report records the bodies
    of [derive_public_key] (Python, before and after the fix) and of the
    [forSelf] branch of the TypeScript and Go SDKs. *)

Module KeyDeriver.

(** *** The curve and hash provider

    Point addition, multiplication of the generator by a scalar, the group
    order, the "anyone" base point, and the HMAC of an invoice number keyed on a
    point, read as an integer.  The canonical invoice token and the bound on
    protocol names are fixed by the implementation. *)
Class Provider (point : Type) : Type := {
  curve_order : Z;
  curve_add : point -> point -> point;
  curve_multiply_g : Z -> point;
  infinity : point;
  is_infinity : point -> bool;
  anyone_point : point;
  hmac : string -> point -> Z;
  invoice_token : Z -> string -> string -> string;
  MAX_PROTOCOL_NAME_LENGTH : nat
}.

(** What the derivation assumes of the provider: a commutative group in which
    the generator has the order [curve_order]. *)
Class CurveLaws {point : Type} (P : Provider point) : Prop := {
  curve_order_gt_1 : 1 < curve_order;
  curve_add_assoc : forall p q r : point,
    curve_add p (curve_add q r) = curve_add (curve_add p q) r;
  curve_add_comm : forall p q : point, curve_add p q = curve_add q p;
  curve_add_infinity_l : forall p : point, curve_add infinity p = p;
  curve_add_inverse : forall p : point, exists q, curve_add p q = infinity;
  curve_multiply_g_add : forall a b : Z,
    curve_multiply_g (a + b) = curve_add (curve_multiply_g a) (curve_multiply_g b);
  curve_multiply_g_order : curve_multiply_g curve_order = infinity;
  is_infinity_spec : forall p : point, is_infinity p = true <-> p = infinity
}.

(** *** Errors (section 7 of the specification) *)
Inductive Error : Type :=
| InvalidProtocolDescriptor
| InvalidKeyID
| InvalidReferencePoint
| DegenerateScalar
| InvalidCounterparty
| InvalidCounterpartyForPrivateDerivation
| DerivationFailed (cause : Error)
| InvalidNonceLength
| InvalidEncoding.

Inductive Result (A : Type) : Type :=
| Ok (value : A)
| Err (e : Error).
Arguments Ok {A} value.
Arguments Err {A} e.

Definition Result_map {A B : Type} (f : A -> B) (r : Result A) : Result B :=
  match r with
  | Ok a => Ok (f a)
  | Err e => Err e
  end.

Definition Result_bind {A B : Type} (r : Result A) (f : A -> Result B) : Result B :=
  match r with
  | Ok a => f a
  | Err e => Err e
  end.

Definition is_error {A : Type} (r : Result A) : Prop :=
  match r with
  | Ok _ => False
  | Err _ => True
  end.

(** *** Data model *)
Inductive SecurityLevel : Type := Level0 | Level1 | Level2.

Definition SecurityLevel_to_Z (l : SecurityLevel) : Z :=
  match l with
  | Level0 => 0
  | Level1 => 1
  | Level2 => 2
  end.

Record ProtocolDescriptor : Type := {
  securityLevel : SecurityLevel;
  protocolName : string
}.

Record RootIdentity (point : Type) : Type := {
  privateScalar : Z;
  publicPoint : point
}.
Arguments privateScalar {point} _.
Arguments publicPoint {point} _.

Inductive Counterparty (point : Type) : Type :=
| Self
| Anyone
| OtherParty (Q : point).
Arguments Self {point}.
Arguments Anyone {point}.
Arguments OtherParty {point} Q.

Section Derivation.
Context {point : Type} {P : Provider point}.

(** The public point of a private scalar. *)
Definition publicKeyOf (d : Z) : point := curve_multiply_g d.

(** A root identity is the pair of a scalar in [0, n) and its public point. *)
Definition well_formed (root : RootIdentity point) : Prop :=
  0 <= privateScalar root < curve_order /\
  publicPoint root = publicKeyOf (privateScalar root).

(** Modelled from the spec: the resolution of a counterparty reference
    (sections 3 and 4.3) is not in the sources.  [Self] stands for the root's
    own public point, [Anyone] for the fixed "anyone" base point, [OtherParty]
    for the point it carries. *)
Definition referencePoint (root : RootIdentity point) (counterparty : Counterparty point)
  : point :=
  match counterparty with
  | Self => publicPoint root
  | Anyone => anyone_point
  | OtherParty Q => Q
  end.

(** Modelled from the spec: the Invoice Number Builder (section 4.1) is the
    SDKs' [computeInvoiceNumber], which is not in the sources.  It fails with
    [InvalidProtocolDescriptor] when the protocol name is empty or longer than
    the fixed maximum, with [InvalidKeyID] when the key identifier is empty, and
    otherwise yields the canonical token. *)
Definition buildInvoiceNumber (protocol : ProtocolDescriptor) (keyID : string)
  : Result string :=
  let len := String.length (protocolName protocol) in
  if ((len =? 0) || (MAX_PROTOCOL_NAME_LENGTH <? len))%nat then
    Err InvalidProtocolDescriptor
  else if (String.length keyID =? 0)%nat then Err InvalidKeyID
  else Ok (invoice_token (SecurityLevel_to_Z (securityLevel protocol))
             (protocolName protocol) keyID).

(** Modelled from the spec: the Branch Scalar Deriver (section 4.2) is not in
    the sources.  The HMAC is reduced modulo the group order; the identity as
    reference point fails with [InvalidReferencePoint] and a zero reduction with
    [DegenerateScalar]. *)
Definition deriveBranchScalar (invoiceNumber : string) (referencePoint : point)
  : Result Z :=
  if is_infinity referencePoint then Err InvalidReferencePoint
  else
    let scalar := hmac invoiceNumber referencePoint mod curve_order in
    if scalar =? 0 then Err DegenerateScalar else Ok scalar.

(** Modelled from the spec: [KeyDeriver.derivePrivateKey] (section 4.3) is
    called by the test programs and is not in the sources.  Invalid for [Self];
    otherwise the root scalar plus the branch scalar keyed on the counterparty's
    point, modulo the group order; a failure of the branch scalar deriver is
    wrapped in [DerivationFailed]. *)
Definition derivePrivateKey (root : RootIdentity point) (protocol : ProtocolDescriptor)
  (keyID : string) (counterparty : Counterparty point) : Result Z :=
  match counterparty with
  | Self => Err InvalidCounterpartyForPrivateDerivation
  | _ =>
      match buildInvoiceNumber protocol keyID with
      | Err e => Err e
      | Ok invoiceNumber =>
          match deriveBranchScalar invoiceNumber
                  (referencePoint root counterparty) with
          | Err e => Err (DerivationFailed e)
          | Ok branchScalar =>
              Ok ((privateScalar root + branchScalar) mod curve_order)
          end
      end
  end.

(** Modelled from the spec: [KeyDeriver.derivePublicKey] (section 4.3) is called
    by the test programs and is not in the sources.  In both modes the branch
    scalar is keyed on the counterparty's point; [forSelf = true] adds it to the
    root's public point, [forSelf = false] to the counterparty's.  [Self] with
    [forSelf = false] is rejected with [InvalidCounterparty]. *)
Definition derivePublicKey (root : RootIdentity point) (protocol : ProtocolDescriptor)
  (keyID : string) (counterparty : Counterparty point) (forSelf : bool)
  : Result point :=
  match counterparty, forSelf with
  | Self, false => Err InvalidCounterparty
  | _, _ =>
      match buildInvoiceNumber protocol keyID with
      | Err e => Err e
      | Ok invoiceNumber =>
          match deriveBranchScalar invoiceNumber
                  (referencePoint root counterparty) with
          | Err e => Err (DerivationFailed e)
          | Ok branchScalar =>
              let base :=
                if forSelf then publicPoint root
                else referencePoint root counterparty in
              Ok (curve_add base (curve_multiply_g branchScalar))
          end
      end
  end.

(** *** The code recorded in KEY_DERIVATION_BUG_REPORT.md

    [self] is the Python [KeyDeriver]: [_root_private_key] and
    [_root_public_key] are the two fields of [RootIdentity]. *)

(** Modelled from the spec: [counterparty.to_public_key(self._root_public_key)]
    is not in the sources; the resolution of the reference as above, [Self]
    giving the root public key passed in. *)
Definition to_public_key (counterparty : Counterparty point) (root_public_key : point)
  : point :=
  match counterparty with
  | Self => root_public_key
  | Anyone => anyone_point
  | OtherParty Q => Q
  end.

(** Modelled from the spec: [compute_invoice_number] is not in the sources; the
    canonical token of section 4.1, without the validation. *)
Definition compute_invoice_number (protocol : ProtocolDescriptor)
  (key_id : string) : string :=
  invoice_token (SecurityLevel_to_Z (securityLevel protocol))
    (protocolName protocol) key_id.

(** Modelled from the spec: [_branch_scalar] is not in the sources; the HMAC of
    section 4.2 reduced modulo the group order, without the failure cases. *)
Definition _branch_scalar (invoice_number : string) (cp_pub : point) : Z :=
  hmac invoice_number cp_pub mod curve_order.

(** "Current Code (WRONG)", lines 93-116 of the report. *)
Definition derive_public_key_current (self : RootIdentity point)
  (protocol : ProtocolDescriptor) (key_id : string)
  (counterparty : Counterparty point) (for_self : bool) : point :=
  let invoice_number := compute_invoice_number protocol key_id in
  let cp_pub :=
    if negb for_self then to_public_key counterparty (publicPoint self)
    else publicPoint self in
  let delta := _branch_scalar invoice_number cp_pub in
  if for_self then
    let delta_point := curve_multiply_g delta in
    curve_add (publicPoint self) delta_point
  else
    let delta_point := curve_multiply_g delta in
    curve_add cp_pub delta_point.

(** "Fixed Code (CORRECT)", lines 121-151 of the report. *)
Definition derive_public_key_fixed (self : RootIdentity point)
  (protocol : ProtocolDescriptor) (key_id : string)
  (counterparty : Counterparty point) (for_self : bool) : point :=
  let invoice_number := compute_invoice_number protocol key_id in
  if for_self then
    let cp_pub := to_public_key counterparty (publicPoint self) in
    let delta := _branch_scalar invoice_number cp_pub in
    let derived_priv := (privateScalar self + delta) mod curve_order in
    publicKeyOf derived_priv
  else
    let cp_pub := to_public_key counterparty (publicPoint self) in
    let delta := _branch_scalar invoice_number cp_pub in
    let delta_point := curve_multiply_g delta in
    curve_add cp_pub delta_point.

(** [PrivateKey.deriveChild(counterparty, invoiceNumber)] as the report
    describes it: "derive the private key: root_priv + delta". *)
Definition deriveChild (rootKey : Z) (counterparty : point)
  (invoiceNumber : string) : Z :=
  (rootKey + _branch_scalar invoiceNumber counterparty) mod curve_order.

(** The [forSelf] branch of the TypeScript and Go SDKs, lines 37-52 of the
    report: [rootKey.deriveChild(counterparty, invoice).toPublicKey()]. *)
Definition sdk_derivePublicKey_forSelf (rootKey : Z)
  (protocolID : ProtocolDescriptor) (keyID : string) (counterparty : point)
  : point :=
  publicKeyOf (deriveChild rootKey counterparty
                 (compute_invoice_number protocolID keyID)).

(** *** The test program test_key_derivation.ts *)
Section Harness.
(** [PrivateKey.fromWif], [PublicKey.fromString] and the hexadecimal renderings
    of the SDK. *)
Variable fromWif : string -> Z.
Variable fromString : string -> point.
Variable toHex : Z -> string.
Variable toString : point -> string.

Record KeyDerivationResult : Type := {
  privateKeyHex : string;
  publicKeyForSelfHex : string;
  publicKeyNotForSelfHex : string;
  publicKeyFromPrivateHex : string
}.

(** [new KeyDeriver(rootKey)]: the deriver holds the root key and its public
    key. *)
Definition KeyDeriver_new (rootKey : Z) : RootIdentity point :=
  {| privateScalar := rootKey; publicPoint := publicKeyOf rootKey |}.

(** [deriveKeysTypeScript]; an error of the SDK is an exception that ends the
    function.  The parameter [forSelf] is not used by the body. *)
Definition deriveKeysTypeScript (protocolID : ProtocolDescriptor)
  (keyID : string) (counterpartyHex : string) (forSelf : bool)
  : Result KeyDerivationResult :=
  let rootKey := fromWif Constants.TEST_PRIVATE_KEY_WIF in
  let keyDeriver := KeyDeriver_new rootKey in
  let counterpartyPub := OtherParty (fromString counterpartyHex) in
  Result_bind (derivePrivateKey keyDeriver protocolID keyID counterpartyPub)
    (fun derivedPriv =>
  Result_bind (derivePublicKey keyDeriver protocolID keyID counterpartyPub true)
    (fun derivedPubForSelf =>
  Result_bind (derivePublicKey keyDeriver protocolID keyID counterpartyPub false)
    (fun derivedPubNotForSelf =>
  Ok {| privateKeyHex := toHex derivedPriv;
        publicKeyForSelfHex := toString derivedPubForSelf;
        publicKeyNotForSelfHex := toString derivedPubNotForSelf;
        publicKeyFromPrivateHex := toString (publicKeyOf derivedPriv) |}))).

End Harness.

End Derivation.

End KeyDeriver.

(** ** Invalid input of the derivation operations

    The conditions under which sections 4.1 to 4.3 of the specification make
    an operation fail, as decidable predicates on its input. *)

Module Validity.
Import KeyDeriver.

Section Validity.
Context {point : Type} {P : Provider point}.








End Validity.

End Validity.

(** ** The results recorded in KEY_DERIVATION_BUG_REPORT.md

    Output of the three test programs for the fixed root key, the protocol
    [PROTOCOL_ID], the key identifier of the two fixed nonces and the
    counterparty [TEST_COUNTERPARTY_KEY]. *)

Module BugReport.

Record Results : Type := {
  private_key : string;
  public_key_from_private : string;
  public_key_for_self : string;
  public_key_not_for_self : string
}.

Definition typescript_results : Results := {|
  private_key :=
    "26bbbb010eab5d1ae2666c851c145dcb45f5e926d63a8e81a153d2b6ed8ab2fc";
  public_key_from_private :=
    "024467ed1ba7c9d46ad972fe31c090be264e8892c8d12dcb5441d7c0c307ad99dc";
  public_key_for_self :=
    "024467ed1ba7c9d46ad972fe31c090be264e8892c8d12dcb5441d7c0c307ad99dc";
  public_key_not_for_self :=
    "02528a60dee9a4124298e5db896185abf248962487d1da43bf414f7e9948fa6ab3"
|}.

Definition go_results : Results := {|
  private_key :=
    "26bbbb010eab5d1ae2666c851c145dcb45f5e926d63a8e81a153d2b6ed8ab2fc";
  public_key_from_private :=
    "024467ed1ba7c9d46ad972fe31c090be264e8892c8d12dcb5441d7c0c307ad99dc";
  public_key_for_self :=
    "024467ed1ba7c9d46ad972fe31c090be264e8892c8d12dcb5441d7c0c307ad99dc";
  public_key_not_for_self :=
    "02528a60dee9a4124298e5db896185abf248962487d1da43bf414f7e9948fa6ab3"
|}.

Definition python_results : Results := {|
  private_key :=
    "26bbbb010eab5d1ae2666c851c145dcb45f5e926d63a8e81a153d2b6ed8ab2fc";
  public_key_from_private :=
    "024467ed1ba7c9d46ad972fe31c090be264e8892c8d12dcb5441d7c0c307ad99dc";
  public_key_for_self :=
    "02e0a7c5cde04b4404e7036b1c564a6b26bcc5f00802622c24864ad883a8efbccb";
  public_key_not_for_self :=
    "02528a60dee9a4124298e5db896185abf248962487d1da43bf414f7e9948fa6ab3"
|}.

End BugReport.

(** ** A concrete provider: the cyclic group of order 5

    Small enough for every law to be checked by cases; it serves to run the
    derivation on concrete inputs. *)

Module Cyclic5.
Import KeyDeriver.

Inductive residue : Type := r0 | r1 | r2 | r3 | r4.

Definition to_Z (r : residue) : Z :=
  match r with
  | r0 => 0
  | r1 => 1
  | r2 => 2
  | r3 => 3
  | r4 => 4
  end.

Definition of_Z (z : Z) : residue :=
  match z with
  | 1 => r1
  | 2 => r2
  | 3 => r3
  | 4 => r4
  | _ => r0
  end.

Definition add (a b : residue) : residue := of_Z ((to_Z a + to_Z b) mod 5).

Definition is_zero (a : residue) : bool :=
  match a with
  | r0 => true
  | _ => false
  end.

(** The token of BRC-43: level, protocol name and key identifier joined by
    dashes. *)
Definition token (level : Z) (name keyID : string) : string :=
  ((match level with
    | 0 => "0"
    | 1 => "1"
    | _ => "2"
    end) ++ "-" ++ name ++ "-" ++ keyID)%string.

#[export] Instance provider : Provider residue := {|
  curve_order := 5;
  curve_add := add;
  curve_multiply_g := fun k => of_Z (k mod 5);
  infinity := r0;
  is_infinity := is_zero;
  anyone_point := r1;
  hmac := fun invoice p => Z.of_nat (String.length invoice) + 3 * to_Z p + 1;
  invoice_token := token;
  MAX_PROTOCOL_NAME_LENGTH := 400
|}.

Definition root : RootIdentity residue :=
  {| privateScalar := 3; publicPoint := r3 |}.

Definition protocol : ProtocolDescriptor :=
  {| securityLevel := Level2; protocolName := "auth message signature" |}.

End Cyclic5.

(** ** Characters the decoder passes over *)

Module Lenient.
Import Base64.

(** A character the decoder skips: neither a Base64 character nor padding. *)
Definition skipped (c : ascii) : bool :=
  match unbase64 c with
  | Some _ => false
  | None => negb (Ascii.eqb c pad)
  end.

(** The string without the characters the decoder skips. *)
Fixpoint strip (s : string) : string :=
  match s with
  | EmptyString => EmptyString
  | String c rest => if skipped c then strip rest else String c (strip rest)
  end.

End Lenient.

(** ** Strings with wide code units

    A TypeScript [string] is a sequence of 16-bit code units; the strings of
    the modules above are those whose code units are below 256.  Node's Base64
    decoder looks a code unit up in a table of 256 entries after truncating it
    to its low byte, so that U+0141 is read as the letter A. *)

Module Utf16.
Import Base64 Lenient.

(** The character the decoder reads for a code unit. *)
Definition low_byte (unit : Z) : ascii := ascii_of_N (Z.to_N (Z.land unit 255)).

(** A string of code units as the decoder reads it. *)
Fixpoint truncate (data : list Z) : string :=
  match data with
  | [] => EmptyString
  | unit :: rest => String (low_byte unit) (truncate rest)
  end.

(** The code units of a string without wide characters. *)
Fixpoint code_units (s : string) : list Z :=
  match s with
  | EmptyString => []
  | String c rest => Z.of_N (N_of_ascii c) :: code_units rest
  end.

(** The two helpers of test_brc104_signatures.ts on Node, for strings of
    code units. *)
Definition buggyBase64ToBytes (data : list Z) : list Z :=
  Signatures.buggyBase64ToBytes Signatures.node (truncate data).

Definition correctSignatureDataPrep (nonce1 nonce2 : list Z) : list Z :=
  Signatures.correctSignatureDataPrep Signatures.node (truncate nonce1)
    (truncate nonce2).

(** A code unit the decoder passes over. *)
Definition unread (unit : Z) : bool := skipped (low_byte unit).

(** The string without the code units the decoder passes over. *)
Definition strip (data : list Z) : list Z :=
  filter (fun unit => negb (unread unit)) data.

(** The code unit of the padding character. *)
Definition pad_unit : Z := 61.

End Utf16.

(** ** Base64 as the Go library decodes it

    [base64.StdEncoding.DecodeString] of the Go tests is strict where the Node
    decoder is lenient.  It reads the input in quanta of four characters of
    the standard alphabet, skipping only line feeds and carriage returns;
    padding may only complete the last quantum, and any other character is a
    [CorruptInputError] carrying its offset.  The bytes of the quanta that
    were complete before the error are still returned. *)

Module GoBase64.
Import Base64.

Inductive error : Type := CorruptInputError (offset : nat).

(** [decodeMap] of [StdEncoding]: the value of a character of the standard
    alphabet, [None] (0xff in Go) for any other. *)
Definition decodeMap (c : ascii) : option Z :=
  let n := Z.of_N (N_of_ascii c) in
  if (65 <=? n) && (n <=? 90) then Some (n - 65)
  else if (97 <=? n) && (n <=? 122) then Some (n - 71)
  else if (48 <=? n) && (n <=? 57) then Some (n + 4)
  else if n =? 43 then Some 62
  else if n =? 47 then Some 63
  else None.

(** ['\n'] or ['\r']. *)
Definition is_newline (c : ascii) : bool :=
  let n := Z.of_N (N_of_ascii c) in (n =? 10) || (n =? 13).

(** The end of [decodeQuantum]: the sextets of [dbuf] (absent ones are zero)
    are packed into 24 bits, [val := d0<<18 | d1<<12 | d2<<6 | d3], and the
    first [dlen - 1] bytes of [val] are written. *)
Definition assemble (dbuf : list Z) : Z :=
  Z.lor (Z.lor (Z.lor (Z.shiftl (nth 0 dbuf 0) 18) (Z.shiftl (nth 1 dbuf 0) 12))
           (Z.shiftl (nth 2 dbuf 0) 6))
        (nth 3 dbuf 0).

Definition convert (dlen : nat) (dbuf : list Z) : list Z :=
  let val := assemble dbuf in
  let b0 := Z.shiftr val 16 mod 256 in
  let b1 := Z.shiftr val 8 mod 256 in
  let b2 := Z.shiftr val 0 mod 256 in
  match dlen with
  | 4%nat => [b0; b1; b2]
  | 3%nat => [b0; b1]
  | 2%nat => [b0]
  | _ => []
  end.

(** Where the decoder stands: inside a quantum with the sextets read so far
    (their number is Go's [j]); after the first padding character of a quantum
    that holds two sextets, looking for the second; or after the padding, where
    only newlines may follow. *)
Inductive state : Type :=
| Quantum (dbuf : list Z)
| SecondPad (dbuf : list Z)
| Trailing (dlen : nat) (dbuf : list Z).

(** [Decode], the loop over [decodeQuantum], as one pass over the input; [si] is
    the offset of the first character of [src]. *)
Fixpoint run (st : state) (si : nat) (src : string) : list Z * option error :=
  match src with
  | EmptyString =>
      match st with
      | Quantum [] => ([], None)
      | Quantum dbuf => ([], Some (CorruptInputError (si - List.length dbuf)))
      | SecondPad _ => ([], Some (CorruptInputError si))
      | Trailing dlen dbuf => (convert dlen dbuf, None)
      end
  | String c rest =>
      match st with
      | Quantum dbuf =>
          match decodeMap c with
          | Some out =>
              if (List.length dbuf =? 3)%nat then
                let (bytes, err) := run (Quantum []) (S si) rest in
                (convert 4 (dbuf ++ [out]) ++ bytes, err)
              else run (Quantum (dbuf ++ [out])) (S si) rest
          | None =>
              if is_newline c then run (Quantum dbuf) (S si) rest
              else if negb (Ascii.eqb c pad) then
                ([], Some (CorruptInputError si))
              else
                match List.length dbuf with
                | 0%nat | 1%nat => ([], Some (CorruptInputError si))
                | 2%nat => run (SecondPad dbuf) (S si) rest
                | _ => run (Trailing 3 dbuf) (S si) rest
                end
          end
      | SecondPad dbuf =>
          if is_newline c then run (SecondPad dbuf) (S si) rest
          else if negb (Ascii.eqb c pad) then
            ([], Some (CorruptInputError (si - 1)))
          else run (Trailing 2 dbuf) (S si) rest
      | Trailing dlen dbuf =>
          if is_newline c then run (Trailing dlen dbuf) (S si) rest
          else (convert dlen dbuf, Some (CorruptInputError si))
      end
  end.

(** [base64.StdEncoding.DecodeString(s)]: the bytes decoded and the error. *)
Definition DecodeString (s : string) : list Z * option error :=
  run (Quantum []) 0 s.

(** The error of a string that follows complete padding: none when only
    newlines follow, otherwise the offset of the first other character. *)
Fixpoint trailing_error (si : nat) (rest : string) : option error :=
  match rest with
  | EmptyString => None
  | String c rest' =>
      if is_newline c then trailing_error (S si) rest'
      else Some (CorruptInputError si)
  end.

(** A character Go rejects wherever it stands: not of the standard alphabet,
    not a newline, not padding. *)
Definition illegal (c : ascii) : bool :=
  match decodeMap c with
  | Some _ => false
  | None => negb (is_newline c) && negb (Ascii.eqb c pad)
  end.

Fixpoint has_illegal (s : string) : bool :=
  match s with
  | EmptyString => false
  | String c rest => illegal c || has_illegal rest
  end.

End GoBase64.

(** ** The Go test of the signature data (test_brc104_signatures_test.go) *)

Module GoSignatures.
Import GoBase64.

(** Lines 25-35: each nonce is decoded, an error ends the test ([t.Fatalf]),
    and the session bytes are appended to the initial bytes. *)
Definition sigData (InitialNonceB64 SessionNonceB64 : string)
  : list Z + error :=
  let (initialBytes, err) := DecodeString InitialNonceB64 in
  match err with
  | Some e => inr e
  | None =>
      let (sessionBytes, err) := DecodeString SessionNonceB64 in
      match err with
      | Some e => inr e
      | None => inl (initialBytes ++ sessionBytes)
      end
  end.

(** Lines 49-50: the two strings concatenated and decoded once, the error
    dropped. *)
Definition incorrectSigData (InitialNonceB64 SessionNonceB64 : string) : list Z :=
  let concatenatedB64 := (InitialNonceB64 ++ SessionNonceB64)%string in
  fst (DecodeString concatenatedB64).

End GoSignatures.

(** ** The two decoders side by side *)

Module CrossLanguage.
Import Base64.

(** The bytes Node has already returned when Go holds the sextets [dbuf] of
    an unfinished quantum. *)
Definition emitted (dbuf : list Z) : list Z :=
  match dbuf with
  | [d0; d1] => [byte1 d0 d1]
  | [d0; d1; d2] => [byte1 d0 d1; byte2 d1 d2]
  | _ => []
  end.

Definition is_sextet (d : Z) : Prop := 0 <= d < 64.

End CrossLanguage.

(** * Properties *)

(** ** Strings *)

Module StringFacts.

Lemma append_empty_r (s : string) : (s ++ "")%string = s.
Proof. induction s as [|c s IH]; cbn; [reflexivity|now rewrite IH]. Qed.

Lemma append_assoc (s t u : string) :
  ((s ++ t) ++ u)%string = (s ++ t ++ u)%string.
Proof. induction s as [|c s IH]; cbn; [reflexivity|now rewrite IH]. Qed.

Lemma length_append (s t : string) :
  String.length (s ++ t) = (String.length s + String.length t)%nat.
Proof. induction s as [|c s IH]; cbn; [reflexivity|now rewrite IH]. Qed.

End StringFacts.

(** ** Base64: sextet arithmetic and the round trip *)

Module Base64Facts.
Import Base64 StringFacts.

Lemma sextets_complete (s : Z) : 0 <= s < 64 -> In s sextets.
Proof.
  intros Hs. unfold sextets.
  replace s with (Z.of_nat (Z.to_nat s)) by lia.
  apply in_map, in_seq. lia.
Qed.

(** A boolean property checked on the 64 sextets holds of every sextet. *)
Lemma sextet_cases (P : Z -> bool) :
  forallb P sextets = true -> forall s, 0 <= s < 64 -> P s = true.
Proof.
  intros Hall s Hs. rewrite forallb_forall in Hall.
  apply Hall, sextets_complete, Hs.
Qed.

Lemma sextet_cases2 (P : Z -> Z -> bool) :
  forallb (fun a => forallb (P a) sextets) sextets = true ->
  forall a b, 0 <= a < 64 -> 0 <= b < 64 -> P a b = true.
Proof.
  intros Hall a b Ha Hb.
  apply (sextet_cases (P a)); [|exact Hb].
  apply (sextet_cases (fun a => forallb (P a) sextets)); assumption.
Qed.

Lemma unbase64_b64char (s : Z) : 0 <= s < 64 -> unbase64 (b64char s) = Some s.
Proof.
  intros Hs.
  assert (H : option_Z_eqb (unbase64 (b64char s)) s = true).
  { revert s Hs. apply sextet_cases. vm_compute. reflexivity. }
  destruct (unbase64 (b64char s)) as [v|]; simpl in H; [|discriminate].
  apply Z.eqb_eq in H. now subst.
Qed.

Lemma unbase64_pad : unbase64 pad = None.
Proof. reflexivity. Qed.

(** On sextets the shifts and masks of the decoder are plain arithmetic. *)
Lemma byte1_arith (hi lo : Z) :
  0 <= hi < 64 -> 0 <= lo < 64 -> byte1 hi lo = hi * 4 + lo / 16.
Proof.
  intros Hhi Hlo. apply Z.eqb_eq.
  revert hi lo Hhi Hlo.
  apply (sextet_cases2 (fun hi lo => byte1 hi lo =? hi * 4 + lo / 16)).
  vm_compute. reflexivity.
Qed.

Lemma byte2_arith (hi lo : Z) :
  0 <= hi < 64 -> 0 <= lo < 64 -> byte2 hi lo = hi mod 16 * 16 + lo / 4.
Proof.
  intros Hhi Hlo. apply Z.eqb_eq.
  revert hi lo Hhi Hlo.
  apply (sextet_cases2 (fun hi lo => byte2 hi lo =? hi mod 16 * 16 + lo / 4)).
  vm_compute. reflexivity.
Qed.

Lemma byte3_arith (hi lo : Z) :
  0 <= hi < 64 -> 0 <= lo < 64 -> byte3 hi lo = hi mod 4 * 64 + lo.
Proof.
  intros Hhi Hlo. apply Z.eqb_eq.
  revert hi lo Hhi Hlo.
  apply (sextet_cases2 (fun hi lo => byte3 hi lo =? hi mod 4 * 64 + lo)).
  vm_compute. reflexivity.
Qed.

Lemma sextet1_range a : is_byte a -> 0 <= sextet1 a < 64.
Proof. unfold is_byte, sextet1. intros. Z.div_mod_to_equations. lia. Qed.

Lemma sextet2_range a b : is_byte a -> is_byte b -> 0 <= sextet2 a b < 64.
Proof. unfold is_byte, sextet2. intros. Z.div_mod_to_equations. lia. Qed.

Lemma sextet3_range b c : is_byte b -> is_byte c -> 0 <= sextet3 b c < 64.
Proof. unfold is_byte, sextet3. intros. Z.div_mod_to_equations. lia. Qed.

Lemma sextet4_range c : is_byte c -> 0 <= sextet4 c < 64.
Proof. unfold is_byte, sextet4. intros. Z.div_mod_to_equations. lia. Qed.

Lemma byte1_sextets a b :
  is_byte a -> is_byte b -> byte1 (sextet1 a) (sextet2 a b) = a.
Proof.
  intros Ha Hb.
  rewrite byte1_arith by auto using sextet1_range, sextet2_range.
  unfold is_byte, sextet1, sextet2 in *. Z.div_mod_to_equations. lia.
Qed.

Lemma byte2_sextets a b c :
  is_byte a -> is_byte b -> is_byte c -> byte2 (sextet2 a b) (sextet3 b c) = b.
Proof.
  intros Ha Hb Hc.
  rewrite byte2_arith by auto using sextet2_range, sextet3_range.
  unfold is_byte, sextet2, sextet3 in *. Z.div_mod_to_equations. lia.
Qed.

Lemma byte3_sextets b c :
  is_byte b -> is_byte c -> byte3 (sextet3 b c) (sextet4 c) = c.
Proof.
  intros Hb Hc.
  rewrite byte3_arith by auto using sextet3_range, sextet4_range.
  unfold is_byte, sextet3, sextet4 in *. Z.div_mod_to_equations. lia.
Qed.

Lemma is_byteb_spec (b : Z) : is_byteb b = true <-> is_byte b.
Proof. unfold is_byteb, is_byte. rewrite andb_true_iff. lia. Qed.

Lemma is_byte_0 : is_byte 0.
Proof. unfold is_byte. lia. Qed.

Create HintDb b64.

#[local] Hint Resolve sextet1_range sextet2_range sextet3_range sextet4_range
  is_byte_0 : b64.

(** Induction on byte lists three bytes at a time, as [encode] recurses. *)
Lemma list_ind3 (A : Type) (P : list A -> Prop) :
  P [] -> (forall a, P [a]) -> (forall a b, P [a; b]) ->
  (forall a b c l, P l -> P (a :: b :: c :: l)) ->
  forall l, P l.
Proof.
  intros H0 H1 H2 H3 l.
  enough (H : P l /\ (forall a, P (a :: l)) /\ (forall a b, P (a :: b :: l)))
    by apply H.
  induction l as [|x l (IH0 & IH1 & IH2)]; repeat split; auto.
Qed.

(** One step of the decoder on the character of a sextet. *)
Lemma decode_from_sextet (phase : nat) (hi s : Z) (rest : string) :
  0 <= s < 64 ->
  decode_from phase hi (String (b64char s) rest) =
  match phase with
  | 0%nat => decode_from 1 s rest
  | 1%nat => byte1 hi s :: decode_from 2 s rest
  | 2%nat => byte2 hi s :: decode_from 3 s rest
  | _ => byte3 hi s :: decode_from 0 s rest
  end.
Proof.
  intros Hs. cbn [decode_from]. now rewrite unbase64_b64char.
Qed.

Lemma decode_from_pad (phase : nat) (hi : Z) (rest : string) :
  decode_from phase hi (String pad rest) = [].
Proof. reflexivity. Qed.

(** At the start of a group the previous sextet plays no part. *)
Lemma decode_from_0 (s : string) (hi : Z) : decode_from 0 hi s = decode s.
Proof.
  unfold decode. induction s as [|c rest IH]; cbn [decode_from]; [reflexivity|].
  destruct (unbase64 c); [reflexivity|].
  destruct (Ascii.eqb c pad); [reflexivity|exact IH].
Qed.

(** Runs the decoder over the characters [encode] produced for a group and
    puts the bytes of the group back together. *)
Ltac decode_group :=
  rewrite ?decode_from_sextet, ?decode_from_pad by auto with b64;
  rewrite ?byte1_sextets, ?byte2_sextets, ?byte3_sextets by auto with b64.

(** Decoding an encoding followed by more text returns the encoded bytes; when
    the encoding ends in padding the decoder stops there and the text that
    follows is never read. *)
Lemma decode_encode_append (bytes : list Z) (rest : string) :
  bytes_ok bytes = true ->
  decode (encode bytes ++ rest) =
  bytes ++ (if (List.length bytes mod 3 =? 0)%nat then decode rest else []).
Proof.
  unfold decode at 1. generalize 0 as hi. unfold bytes_ok.
  induction bytes as [|a|a b|a b c l IH] using list_ind3;
    intros hi Hok; cbn [forallb encode append] in *;
    rewrite ?andb_true_iff, ?is_byteb_spec in Hok.
  - apply decode_from_0.
  - destruct Hok as [Ha _]. now decode_group.
  - destruct Hok as (Ha & Hb & _). now decode_group.
  - destruct Hok as (Ha & Hb & Hc & Hl). decode_group.
    rewrite IH by assumption.
    replace (List.length (a :: b :: c :: l)) with (List.length l + 1 * 3)%nat
      by (cbn [List.length]; lia).
    now rewrite Nat.Div0.mod_add.
Qed.

(** Decoding inverts encoding, whatever the length of the byte list. *)
Lemma decode_encode (bytes : list Z) :
  bytes_ok bytes = true -> decode (encode bytes) = bytes.
Proof.
  intros Hok. rewrite <- (append_empty_r (encode bytes)).
  rewrite decode_encode_append by assumption.
  destruct (_ =? _)%nat; apply app_nil_r.
Qed.

(** Whatever the string, the decoder returns bytes. *)
Lemma unbase64_range (c : ascii) (lo : Z) :
  unbase64 c = Some lo -> 0 <= lo < 64.
Proof.
  unfold unbase64.
  repeat match goal with
         | |- context [if ?b then _ else _] => destruct b eqn:?
         end;
    intros [= <-];
    rewrite ?andb_true_iff, ?orb_true_iff, ?Z.leb_le, ?Z.eqb_eq in *; lia.
Qed.

Lemma bytes_of_sextets (hi lo : Z) :
  0 <= hi < 64 -> 0 <= lo < 64 ->
  is_byte (byte1 hi lo) /\ is_byte (byte2 hi lo) /\ is_byte (byte3 hi lo).
Proof.
  intros Hhi Hlo.
  rewrite byte1_arith, byte2_arith, byte3_arith by assumption.
  unfold is_byte. repeat split; Z.div_mod_to_equations; lia.
Qed.

Lemma decode_from_bytes_ok (s : string) (phase : nat) (hi : Z) :
  0 <= hi < 64 -> bytes_ok (decode_from phase hi s) = true.
Proof.
  revert phase hi.
  induction s as [|c rest IH]; intros phase hi Hhi; cbn [decode_from];
    [reflexivity|].
  destruct (unbase64 c) as [lo|] eqn:Hc.
  - apply unbase64_range in Hc.
    destruct (bytes_of_sextets hi lo Hhi Hc) as (H1 & H2 & H3).
    apply is_byteb_spec in H1, H2, H3.
    destruct phase as [|[|[|phase]]]; unfold bytes_ok in *; cbn [forallb];
      rewrite ?H1, ?H2, ?H3; cbn [andb]; now apply IH.
  - destruct (Ascii.eqb c pad); [reflexivity|now apply IH].
Qed.

Lemma decode_bytes_ok (s : string) : bytes_ok (decode s) = true.
Proof. apply decode_from_bytes_ok. lia. Qed.


End Base64Facts.

(** ** The group of the curve *)

Module CurveFacts.
Import KeyDeriver.

Section Laws.
Context {point : Type} {P : Provider point} {L : CurveLaws P}.

Lemma curve_add_infinity_r (p : point) : curve_add p infinity = p.
Proof. rewrite curve_add_comm. apply curve_add_infinity_l. Qed.

Lemma curve_add_cancel_r (p q r : point) :
  curve_add p r = curve_add q r -> p = q.
Proof.
  intros H. destruct (curve_add_inverse r) as [r' Hr'].
  apply (f_equal (fun x => curve_add x r')) in H.
  rewrite <- !curve_add_assoc, Hr', !curve_add_infinity_r in H. exact H.
Qed.

Lemma curve_multiply_g_0 : curve_multiply_g 0 = infinity.
Proof.
  apply (curve_add_cancel_r _ _ (curve_multiply_g 0)).
  rewrite <- curve_multiply_g_add, curve_add_infinity_l. reflexivity.
Qed.

(** Multiples of the order are sent to the identity: first the natural
    multiples, by induction, then the negative ones through the inverse. *)
Lemma curve_multiply_g_order_nat (k : nat) :
  curve_multiply_g (curve_order * Z.of_nat k) = infinity.
Proof.
  induction k as [|k IH].
  - rewrite Z.mul_0_r. apply curve_multiply_g_0.
  - rewrite Nat2Z.inj_succ, Z.mul_succ_r, curve_multiply_g_add, IH.
    rewrite curve_add_infinity_l. apply curve_multiply_g_order.
Qed.

Lemma curve_multiply_g_order_mul (k : Z) :
  curve_multiply_g (curve_order * k) = infinity.
Proof.
  destruct (Z.le_gt_cases 0 k) as [Hk|Hk].
  - rewrite <- (Z2Nat.id k Hk). apply curve_multiply_g_order_nat.
  - pose proof (curve_multiply_g_order_nat (Z.to_nat (- k))) as Hneg.
    rewrite Z2Nat.id in Hneg by lia.
    apply (curve_add_cancel_r _ _ (curve_multiply_g (curve_order * - k))).
    rewrite <- curve_multiply_g_add, Hneg, curve_add_infinity_l.
    replace (curve_order * k + curve_order * - k) with 0 by lia.
    apply curve_multiply_g_0.
Qed.

(** Scalars act modulo the group order. *)
Lemma curve_multiply_g_mod (a : Z) :
  curve_multiply_g (a mod curve_order) = curve_multiply_g a.
Proof.
  pose proof curve_order_gt_1 as Hn.
  rewrite (Z.div_mod a curve_order) at 2 by lia.
  rewrite curve_multiply_g_add, curve_multiply_g_order_mul.
  now rewrite curve_add_infinity_l.
Qed.

(** The public point of a sum of scalars reduced modulo the order. *)
Lemma publicKeyOf_add_mod (d delta : Z) :
  publicKeyOf ((d + delta) mod curve_order) =
  curve_add (publicKeyOf d) (curve_multiply_g delta).
Proof.
  unfold publicKeyOf. now rewrite curve_multiply_g_mod, curve_multiply_g_add.
Qed.

End Laws.

End CurveFacts.

(** ** The small provider is a lawful one *)

Module Cyclic5Facts.
Import KeyDeriver Cyclic5.

Lemma to_Z_of_Z (z : Z) : 0 <= z < 5 -> to_Z (of_Z z) = z.
Proof.
  intros Hz.
  assert (Hcases : z = 0 \/ z = 1 \/ z = 2 \/ z = 3 \/ z = 4) by lia.
  destruct Hcases as [->|[->|[->|[->| ->]]]]; reflexivity.
Qed.

Lemma cyclic5_laws : CurveLaws provider.
Proof.
  split.
  - reflexivity.
  - intros [] [] []; reflexivity.
  - intros [] []; reflexivity.
  - intros []; reflexivity.
  - intros []; [exists r0|exists r4|exists r3|exists r2|exists r1]; reflexivity.
  - intros a b. cbn [curve_multiply_g curve_add provider]. unfold add.
    rewrite !to_Z_of_Z by (apply Z.mod_pos_bound; lia).
    now rewrite <- Z.add_mod by lia.
  - reflexivity.
  - intros []; split; intros H; try reflexivity; discriminate H.
Qed.

Lemma root_well_formed : well_formed root.
Proof. split; [cbn; lia|reflexivity]. Qed.

(** On this provider the Python code before the fix breaks the invariant it was
    reported for: with [for_self=True] it does not return the public key of the
    derived private key, which the fixed code does. *)
Lemma derive_public_key_current_inconsistent :
  derivePrivateKey root protocol "k" (OtherParty r2) = Ok 1 /\
  derive_public_key_fixed root protocol "k" (OtherParty r2) true =
    publicKeyOf 1 /\
  derive_public_key_current root protocol "k" (OtherParty r2) true <>
    publicKeyOf 1.
Proof. repeat split. discriminate. Qed.

End Cyclic5Facts.

(** ** Key derivation *)

Module KeyDeriverFacts.
Import KeyDeriver CurveFacts.

Section Derivation.
Context {point : Type} {P : Provider point}.

(** When the builder succeeds, its token is the one [compute_invoice_number]
    forms. *)
Lemma buildInvoiceNumber_Ok (protocol : ProtocolDescriptor) (keyID invoice : string) :
  buildInvoiceNumber protocol keyID = Ok invoice ->
  invoice = compute_invoice_number protocol keyID /\
  protocolName protocol <> EmptyString /\ keyID <> EmptyString.
Proof.
  unfold buildInvoiceNumber, compute_invoice_number.
  destruct (protocolName protocol) as [|c name] eqn:Hname;
    cbn [String.length Nat.eqb orb]; [discriminate|].
  destruct (MAX_PROTOCOL_NAME_LENGTH <? S (String.length name))%nat;
    [discriminate|].
  destruct keyID as [|k keyID]; cbn [String.length Nat.eqb]; [discriminate|].
  intros [= <-]. repeat split; discriminate || reflexivity.
Qed.

(** When the deriver succeeds, the branch scalar is the reduced HMAC, it is
    not zero, and the reference point is not the identity. *)
Lemma deriveBranchScalar_Ok (invoice : string) (Q : point) (delta : Z) :
  deriveBranchScalar invoice Q = Ok delta ->
  delta = _branch_scalar invoice Q /\ delta <> 0 /\ is_infinity Q = false.
Proof.
  unfold deriveBranchScalar, _branch_scalar.
  destruct (is_infinity Q); [discriminate|].
  destruct (Z.eqb_spec (hmac invoice Q mod curve_order) 0); [discriminate|].
  intros [= <-]. auto.
Qed.

Lemma derivePrivateKey_OtherParty (root : RootIdentity point)
  (protocol : ProtocolDescriptor) (keyID : string) (Q : point)
  (invoice : string) (delta : Z) :
  buildInvoiceNumber protocol keyID = Ok invoice ->
  deriveBranchScalar invoice Q = Ok delta ->
  derivePrivateKey root protocol keyID (OtherParty Q) =
  Ok ((privateScalar root + delta) mod curve_order).
Proof.
  intros Hinv Hdelta. unfold derivePrivateKey. cbn [referencePoint].
  now rewrite Hinv, Hdelta.
Qed.

Lemma derivePublicKey_OtherParty (root : RootIdentity point)
  (protocol : ProtocolDescriptor) (keyID : string) (Q : point)
  (invoice : string) (delta : Z) (forSelf : bool) :
  buildInvoiceNumber protocol keyID = Ok invoice ->
  deriveBranchScalar invoice Q = Ok delta ->
  derivePublicKey root protocol keyID (OtherParty Q) forSelf =
  Ok (curve_add (if forSelf then publicPoint root else Q)
        (curve_multiply_g delta)).
Proof.
  intros Hinv Hdelta. unfold derivePublicKey. cbn [referencePoint].
  now rewrite Hinv, Hdelta.
Qed.

(** The Python code before the fix keys the branch scalar of [for_self=True] on
    the root's own point: the counterparty plays no part in the result. *)
Lemma derive_public_key_current_ignores_counterparty (self : RootIdentity point)
  (protocol : ProtocolDescriptor) (key_id : string)
  (cp1 cp2 : Counterparty point) :
  derive_public_key_current self protocol key_id cp1 true =
  derive_public_key_current self protocol key_id cp2 true.
Proof. reflexivity. Qed.

(** With [for_self=False] the fix changes nothing. *)
Lemma derive_public_key_fixed_not_for_self (self : RootIdentity point)
  (protocol : ProtocolDescriptor) (key_id : string)
  (counterparty : Counterparty point) :
  derive_public_key_fixed self protocol key_id counterparty false =
  derive_public_key_current self protocol key_id counterparty false.
Proof. reflexivity. Qed.

(** The fixed Python code and the [forSelf] branch of the TypeScript and Go SDKs
    are the same computation. *)
Lemma derive_public_key_fixed_for_self (self : RootIdentity point)
  (protocol : ProtocolDescriptor) (key_id : string) (Q : point) :
  derive_public_key_fixed self protocol key_id (OtherParty Q) true =
  sdk_derivePublicKey_forSelf (privateScalar self) protocol key_id Q.
Proof. reflexivity. Qed.

Context {L : CurveLaws P}.

(** On valid input the fixed Python code computes the public key of the
    specification, in both modes. *)
Lemma derive_public_key_fixed_correct (root : RootIdentity point)
  (protocol : ProtocolDescriptor) (keyID : string) (Q : point)
  (invoice : string) (delta : Z) (forSelf : bool) :
  well_formed root ->
  buildInvoiceNumber protocol keyID = Ok invoice ->
  deriveBranchScalar invoice Q = Ok delta ->
  derivePublicKey root protocol keyID (OtherParty Q) forSelf =
  Ok (derive_public_key_fixed root protocol keyID (OtherParty Q) forSelf).
Proof.
  intros [_ Hpub] Hinv Hdelta.
  rewrite (derivePublicKey_OtherParty _ _ _ _ _ _ _ Hinv Hdelta).
  apply buildInvoiceNumber_Ok in Hinv as [-> _].
  apply deriveBranchScalar_Ok in Hdelta as [-> _].
  unfold derive_public_key_fixed. cbn [to_public_key].
  destruct forSelf; [|reflexivity].
  now rewrite publicKeyOf_add_mod, Hpub.
Qed.

(** The consistency check the test program prints ("public key from private
    matches forSelf=true") holds of every result it returns, and the result
    does not depend on the unused parameter. *)
Lemma deriveKeysTypeScript_consistent (fromWif : string -> Z)
  (fromString : string -> point) (toHex : Z -> string)
  (toString : point -> string) (protocolID : ProtocolDescriptor)
  (keyID counterpartyHex : string) (forSelf : bool) (r : KeyDerivationResult) :
  deriveKeysTypeScript fromWif fromString toHex toString protocolID keyID
    counterpartyHex forSelf = Ok r ->
  publicKeyFromPrivateHex r = publicKeyForSelfHex r.
Proof.
  unfold deriveKeysTypeScript, derivePrivateKey, derivePublicKey.
  cbn [referencePoint].
  destruct (buildInvoiceNumber protocolID keyID) as [invoice|e];
    [|discriminate].
  destruct (deriveBranchScalar invoice _) as [delta|e]; [|discriminate].
  cbn [Result_bind]. intros [= <-]. cbn [publicKeyFromPrivateHex publicKeyForSelfHex].
  now rewrite publicKeyOf_add_mod.
Qed.

Lemma deriveKeysTypeScript_forSelf_unused (fromWif : string -> Z)
  (fromString : string -> point) (toHex : Z -> string)
  (toString : point -> string) (protocolID : ProtocolDescriptor)
  (keyID counterpartyHex : string) :
  deriveKeysTypeScript fromWif fromString toHex toString protocolID keyID
    counterpartyHex true =
  deriveKeysTypeScript fromWif fromString toHex toString protocolID keyID
    counterpartyHex false.
Proof. reflexivity. Qed.

End Derivation.

End KeyDeriverFacts.

(** ** Invalid input and errors *)

Module ValidityFacts.
Import KeyDeriver Validity.

Section Validity.
Context {point : Type} {P : Provider point}.








End Validity.

End ValidityFacts.

(** ** Strings and key identifiers *)

Module KeyIdFacts.
Import Constants KeyId StringFacts.

Lemma makeKeyId_spec (a b : string) : makeKeyId a b = (a ++ String space b)%string.
Proof. unfold makeKeyId. cbn. now rewrite append_empty_r. Qed.

Lemma MakeKeyId_spec (a b : string) : MakeKeyId a b = (a ++ String space b)%string.
Proof. unfold MakeKeyId. now rewrite append_assoc. Qed.

(** Splitting at the first space undoes the concatenation as soon as the first
    part holds no space. *)
Lemma split_at_space_append (a b : string) :
  contains_space a = false ->
  split_at_space (a ++ String space b) = Some (a, b).
Proof.
  induction a as [|c a IH]; cbn; [reflexivity|].
  intros H. apply orb_false_iff in H as [Hc Ha].
  now rewrite Hc, IH.
Qed.

Lemma count_spaces_append (a b : string) :
  count_spaces (a ++ b) = (count_spaces a + count_spaces b)%nat.
Proof. induction a as [|c a IH]; cbn; [reflexivity|rewrite IH; lia]. Qed.

Lemma count_spaces_none (a : string) :
  contains_space a = false -> count_spaces a = 0%nat.
Proof.
  induction a as [|c a IH]; cbn; [reflexivity|].
  intros H. apply orb_false_iff in H as [Hc Ha]. now rewrite Hc, IH.
Qed.

End KeyIdFacts.

(** ** What the three programs printed *)

Module BugReportFacts.
Import BugReport.

(** TypeScript and Go agree on every key, and their [forSelf=true] key is the
    public key of the derived private key. *)
Lemma typescript_go_match :
  typescript_results = go_results /\
  public_key_for_self typescript_results =
    public_key_from_private typescript_results.
Proof. split; reflexivity. Qed.

(** Python agrees on the private key and on the [forSelf=False] key; its
    [forSelf=True] key is neither the TypeScript one nor the public key of its
    own derived private key. *)
Lemma python_for_self_differs :
  private_key python_results = private_key typescript_results /\
  public_key_not_for_self python_results =
    public_key_not_for_self typescript_results /\
  public_key_for_self python_results <> public_key_for_self typescript_results /\
  public_key_for_self python_results <> public_key_from_private python_results.
Proof. repeat split; discriminate. Qed.

End BugReportFacts.

(** ** Signature data *)

Module SignaturesFacts.
Import Constants Base64 Base64Facts Signatures.

Lemma correctSignatureDataPrep_node (nonce1 nonce2 : string) :
  correctSignatureDataPrep node nonce1 nonce2 = decode nonce1 ++ decode nonce2.
Proof. reflexivity. Qed.

Lemma buggyBase64ToBytes_node (data : string) :
  buggyBase64ToBytes node data = decode data.
Proof. reflexivity. Qed.

(** Decode-then-concatenate returns the two nonces, whatever their lengths. *)
Lemma correctSignatureDataPrep_encode (bytes1 bytes2 : list Z) :
  bytes_ok bytes1 = true -> bytes_ok bytes2 = true ->
  correctSignatureDataPrep node (encode bytes1) (encode bytes2) =
  bytes1 ++ bytes2.
Proof.
  intros H1 H2. rewrite correctSignatureDataPrep_node.
  now rewrite !decode_encode.
Qed.

(** Concatenate-then-decode loses the second nonce altogether when the first
    one ends in padding, as every 32-byte nonce does. *)
Lemma buggySignatureData_encode (bytes1 bytes2 : list Z) :
  bytes_ok bytes1 = true -> (List.length bytes1 mod 3 =? 0)%nat = false ->
  buggySignatureData node (encode bytes1) (encode bytes2) = bytes1.
Proof.
  intros H1 Hlen. unfold buggySignatureData.
  rewrite buggyBase64ToBytes_node, decode_encode_append, Hlen by assumption.
  apply app_nil_r.
Qed.

(** On Node the helper returns a byte array for every pair of strings. *)
Lemma correctSignatureDataPrep_bytes_ok (nonce1 nonce2 : string) :
  bytes_ok (correctSignatureDataPrep node nonce1 nonce2) = true.
Proof.
  rewrite correctSignatureDataPrep_node. unfold bytes_ok.
  rewrite forallb_app. apply andb_true_iff.
  split; apply decode_bytes_ok.
Qed.



End SignaturesFacts.

(** ** The helpers on strings with wide code units *)

Module Utf16Facts.
Import Base64 Lenient Signatures Base64Facts SignaturesFacts.

Lemma low_byte_code_unit (c : ascii) :
  Utf16.low_byte (Z.of_N (N_of_ascii c)) = c.
Proof. destruct c as [[] [] [] [] [] [] [] []]; reflexivity. Qed.

(** On strings without wide characters the helpers are those of the modules
    above. *)
Lemma truncate_code_units (s : string) : Utf16.truncate (Utf16.code_units s) = s.
Proof.
  induction s as [|c s IH]; [reflexivity|].
  cbn [Utf16.code_units Utf16.truncate]. now rewrite low_byte_code_unit, IH.
Qed.

Lemma correctSignatureDataPrep_code_units (nonce1 nonce2 : string) :
  Utf16.correctSignatureDataPrep (Utf16.code_units nonce1)
    (Utf16.code_units nonce2) =
  correctSignatureDataPrep node nonce1 nonce2.
Proof. unfold Utf16.correctSignatureDataPrep. now rewrite !truncate_code_units. Qed.

Lemma truncate_app (data1 data2 : list Z) :
  Utf16.truncate (data1 ++ data2) =
  (Utf16.truncate data1 ++ Utf16.truncate data2)%string.
Proof.
  induction data1 as [|unit data1 IH]; [reflexivity|].
  cbn [app Utf16.truncate String.append]. now rewrite IH.
Qed.




End Utf16Facts.

(** * The claims of the specification *)

Module Claims.
Import Constants KeyId Base64 Signatures.
Import StringFacts Base64Facts SignaturesFacts KeyIdFacts.

(** C2 - Handshake nonce assembly: for every pair of Base64-encoded 32-byte
    nonces the signing data is the 64-byte sequence of the initial nonce's bytes
    followed by the session nonce's, the verification data the 64-byte sequence
    in the reverse order; for the fixed nonces (32 bytes 0x41, 32 bytes 0x42)
    they are [EXPECTED_SIG_DATA_SIGNING] and [EXPECTED_SIG_DATA_VERIFICATION]. *)
Theorem nonce_assembly (initialNonce sessionNonce : list Z) :
  bytes_ok initialNonce = true -> bytes_ok sessionNonce = true ->
  List.length initialNonce = 32%nat -> List.length sessionNonce = 32%nat ->
  signingData node (encode initialNonce) (encode sessionNonce) =
    initialNonce ++ sessionNonce /\
  List.length (signingData node (encode initialNonce) (encode sessionNonce)) =
    64%nat /\
  verificationData node (encode initialNonce) (encode sessionNonce) =
    sessionNonce ++ initialNonce /\
  List.length (verificationData node (encode initialNonce) (encode sessionNonce))
    = 64%nat /\
  INITIAL_NONCE_B64 = encode (repeat 65 32) /\
  SESSION_NONCE_B64 = encode (repeat 66 32) /\
  signingData node INITIAL_NONCE_B64 SESSION_NONCE_B64 =
    EXPECTED_SIG_DATA_SIGNING /\
  verificationData node INITIAL_NONCE_B64 SESSION_NONCE_B64 =
    EXPECTED_SIG_DATA_VERIFICATION.
Proof.
  intros Hi Hs Li Ls. unfold signingData, verificationData.
  rewrite !correctSignatureDataPrep_encode by assumption.
  rewrite !length_app, Li, Ls.
  repeat split; vm_compute; reflexivity.
Qed.

Lemma nonce_assembly_witness :
  signingData node (encode INITIAL_NONCE_BYTES) (encode SESSION_NONCE_BYTES) =
    INITIAL_NONCE_BYTES ++ SESSION_NONCE_BYTES /\
  List.length
    (signingData node (encode INITIAL_NONCE_BYTES) (encode SESSION_NONCE_BYTES))
    = 64%nat /\
  verificationData node (encode INITIAL_NONCE_BYTES)
    (encode SESSION_NONCE_BYTES) = SESSION_NONCE_BYTES ++ INITIAL_NONCE_BYTES /\
  List.length
    (verificationData node (encode INITIAL_NONCE_BYTES)
       (encode SESSION_NONCE_BYTES)) = 64%nat /\
  INITIAL_NONCE_B64 = encode (repeat 65 32) /\
  SESSION_NONCE_B64 = encode (repeat 66 32) /\
  signingData node INITIAL_NONCE_B64 SESSION_NONCE_B64 =
    EXPECTED_SIG_DATA_SIGNING /\
  verificationData node INITIAL_NONCE_B64 SESSION_NONCE_B64 =
    EXPECTED_SIG_DATA_VERIFICATION.
Proof.
  apply (nonce_assembly INITIAL_NONCE_BYTES SESSION_NONCE_BYTES); reflexivity.
Defined.

(** C3 - Non-homomorphism of the encoding: for the fixed pair
    [INITIAL_NONCE_B64], [SESSION_NONCE_B64], decoding the concatenation of the
    two Base64 strings yields 32 bytes and decoding each and concatenating yields
    64 bytes, so the two differ; hence a pair on which they differ exists. *)
Theorem base64_not_homomorphic :
  buggyBase64ToBytes node (INITIAL_NONCE_B64 ++ SESSION_NONCE_B64)%string <>
    correctSignatureDataPrep node INITIAL_NONCE_B64 SESSION_NONCE_B64 /\
  List.length
    (buggyBase64ToBytes node (INITIAL_NONCE_B64 ++ SESSION_NONCE_B64)%string) =
    32%nat /\
  List.length (correctSignatureDataPrep node INITIAL_NONCE_B64 SESSION_NONCE_B64)
    = 64%nat /\
  exists nonce1 nonce2 : string,
    buggyBase64ToBytes node (nonce1 ++ nonce2)%string <>
    correctSignatureDataPrep node nonce1 nonce2.
Proof.
  assert (Hdiff :
    buggyBase64ToBytes node (INITIAL_NONCE_B64 ++ SESSION_NONCE_B64)%string <>
    correctSignatureDataPrep node INITIAL_NONCE_B64 SESSION_NONCE_B64).
  { intros Heq. apply (f_equal (@List.length Z)) in Heq.
    vm_compute in Heq. discriminate Heq. }
  split; [exact Hdiff|].
  split; [vm_compute; reflexivity|].
  split; [vm_compute; reflexivity|].
  exists INITIAL_NONCE_B64, SESSION_NONCE_B64. exact Hdiff.
Qed.

(** C4 - Key identifier format: [makeKeyId] returns the initial nonce string, a
    single space and the session nonce string, in that order, for all strings
    (the Go [MakeKeyId] agrees); for the fixed nonces it is the literal of the
    specification's Scenario B. *)
Theorem makeKeyId_format (initialNonce sessionNonce : string) :
  makeKeyId initialNonce sessionNonce =
    (initialNonce ++ " " ++ sessionNonce)%string /\
  String.length (makeKeyId initialNonce sessionNonce) =
    (String.length initialNonce + 1 + String.length sessionNonce)%nat /\
  MakeKeyId initialNonce sessionNonce = makeKeyId initialNonce sessionNonce /\
  makeKeyId INITIAL_NONCE_B64 SESSION_NONCE_B64 =
    "QUFBQUFBQUFBQUFBQUFBQUFBQUFBQUFBQUFBQUFBQUE= QkJCQkJCQkJCQkJCQkJCQkJCQkJCQkJCQkJCQkJCQkI="%string.
Proof.
  rewrite MakeKeyId_spec, makeKeyId_spec.
  split; [reflexivity|].
  split; [|split; reflexivity].
  rewrite length_append. cbn [String.length]. lia.
Qed.

(** C9 - Constant consistency: [INITIAL_NONCE_B64] decodes to
    [INITIAL_NONCE_BYTES], 32 bytes 0x41; [SESSION_NONCE_B64] decodes to
    [SESSION_NONCE_BYTES], 32 bytes 0x42; [EXPECTED_SIG_DATA_SIGNING] is the
    former followed by the latter and [EXPECTED_SIG_DATA_VERIFICATION] the
    latter followed by the former. *)
Theorem constants_consistent :
  decode INITIAL_NONCE_B64 = INITIAL_NONCE_BYTES /\
  INITIAL_NONCE_BYTES = repeat 65 32 /\
  decode SESSION_NONCE_B64 = SESSION_NONCE_BYTES /\
  SESSION_NONCE_BYTES = repeat 66 32 /\
  EXPECTED_SIG_DATA_SIGNING = INITIAL_NONCE_BYTES ++ SESSION_NONCE_BYTES /\
  EXPECTED_SIG_DATA_VERIFICATION = SESSION_NONCE_BYTES ++ INITIAL_NONCE_BYTES.
Proof.
  split; [vm_compute; reflexivity|].
  split; [reflexivity|].
  split; [vm_compute; reflexivity|].
  repeat split.
Qed.

(** C10 - Injectivity of the key-identifier builder: when none of the four
    strings contains a space, equal key identifiers come from equal pairs; the
    pair is recovered by splitting the identifier at its space, which is its
    only one. *)
Theorem makeKeyId_injective (a b c d : string) :
  contains_space a = false -> contains_space b = false ->
  contains_space c = false -> contains_space d = false ->
  (makeKeyId a b = makeKeyId c d -> a = c /\ b = d) /\
  split_at_space (makeKeyId a b) = Some (a, b) /\
  count_spaces (makeKeyId a b) = 1%nat.
Proof.
  intros Ha Hb Hc Hd. rewrite !makeKeyId_spec.
  split; [|split].
  - intros Heq. apply (f_equal split_at_space) in Heq.
    rewrite !split_at_space_append in Heq by assumption.
    injection Heq as -> ->. split; reflexivity.
  - apply split_at_space_append, Ha.
  - rewrite count_spaces_append. cbn [count_spaces].
    rewrite !count_spaces_none by assumption. reflexivity.
Qed.

Lemma makeKeyId_injective_witness :
  (makeKeyId INITIAL_NONCE_B64 SESSION_NONCE_B64 =
   makeKeyId INITIAL_NONCE_B64 SESSION_NONCE_B64 ->
   INITIAL_NONCE_B64 = INITIAL_NONCE_B64 /\
   SESSION_NONCE_B64 = SESSION_NONCE_B64) /\
  split_at_space (makeKeyId INITIAL_NONCE_B64 SESSION_NONCE_B64) =
    Some (INITIAL_NONCE_B64, SESSION_NONCE_B64) /\
  count_spaces (makeKeyId INITIAL_NONCE_B64 SESSION_NONCE_B64) = 1%nat.
Proof.
  apply (makeKeyId_injective INITIAL_NONCE_B64 SESSION_NONCE_B64
           INITIAL_NONCE_B64 SESSION_NONCE_B64); reflexivity.
Defined.

Import KeyDeriver CurveFacts KeyDeriverFacts Cyclic5 Cyclic5Facts.
Import Validity ValidityFacts Utf16Facts.

(** C1 - Self-consistency invariant: for every root identity and every
    counterparty [OtherParty Q], with any protocol descriptor and key
    identifier, [derivePublicKey] with [forSelf = true] is the public point of
    the scalar [derivePrivateKey] returns (and fails exactly when it fails). *)
Theorem derivePublicKey_forSelf_consistent (point : Type) (P : Provider point)
  (L : CurveLaws P) (root : RootIdentity point) (protocol : ProtocolDescriptor)
  (keyID : string) (Q : point) :
  well_formed root ->
  derivePublicKey root protocol keyID (OtherParty Q) true =
  Result_map publicKeyOf (derivePrivateKey root protocol keyID (OtherParty Q)).
Proof.
  intros [_ Hpub]. unfold derivePublicKey, derivePrivateKey.
  cbn [referencePoint].
  destruct (buildInvoiceNumber protocol keyID) as [invoice|e]; [|reflexivity].
  destruct (deriveBranchScalar invoice Q) as [delta|e]; [|reflexivity].
  cbn [Result_map]. now rewrite publicKeyOf_add_mod, Hpub.
Qed.

Lemma derivePublicKey_forSelf_consistent_witness :
  derivePublicKey Cyclic5.root Cyclic5.protocol
    (makeKeyId INITIAL_NONCE_B64 SESSION_NONCE_B64) (OtherParty Cyclic5.r1) true =
  Result_map publicKeyOf
    (derivePrivateKey Cyclic5.root Cyclic5.protocol
       (makeKeyId INITIAL_NONCE_B64 SESSION_NONCE_B64) (OtherParty Cyclic5.r1)).
Proof.
  apply (derivePublicKey_forSelf_consistent _ _ cyclic5_laws).
  exact root_well_formed.
Defined.

(** C5 - Private-key derivation formula: for a root with private scalar [d] and
    a counterparty [OtherParty Q], [derivePrivateKey] returns
    [(d + branchScalar) mod n], where [branchScalar] is the branch scalar of the
    invoice number and [Q] (the HMAC reduced modulo [n]) and [n] the group
    order; the result is a scalar of [0, n). *)
Theorem derivePrivateKey_formula (point : Type) (P : Provider point)
  (L : CurveLaws P) (root : RootIdentity point) (protocol : ProtocolDescriptor)
  (keyID : string) (Q : point) (invoiceNumber : string) (branchScalar : Z) :
  buildInvoiceNumber protocol keyID = Ok invoiceNumber ->
  deriveBranchScalar invoiceNumber Q = Ok branchScalar ->
  derivePrivateKey root protocol keyID (OtherParty Q) =
    Ok ((privateScalar root + branchScalar) mod curve_order) /\
  branchScalar = hmac invoiceNumber Q mod curve_order /\
  0 <= (privateScalar root + branchScalar) mod curve_order < curve_order.
Proof.
  intros Hinv Hdelta. split; [|split].
  - now apply derivePrivateKey_OtherParty with (invoice := invoiceNumber).
  - now apply deriveBranchScalar_Ok in Hdelta as [-> _].
  - apply Z.mod_pos_bound. pose proof curve_order_gt_1. lia.
Qed.

Lemma derivePrivateKey_formula_witness :
  derivePrivateKey Cyclic5.root Cyclic5.protocol "k" (OtherParty Cyclic5.r2) =
    Ok ((privateScalar Cyclic5.root + 3) mod curve_order) /\
  3 = hmac "2-auth message signature-k" Cyclic5.r2 mod curve_order /\
  0 <= (privateScalar Cyclic5.root + 3) mod curve_order < curve_order.
Proof.
  apply (derivePrivateKey_formula _ _ cyclic5_laws Cyclic5.root
           Cyclic5.protocol "k" Cyclic5.r2 "2-auth message signature-k" 3);
    reflexivity.
Defined.

(** C6 - Directional distinctness: for a counterparty [OtherParty Q] whose
    point differs from the root's own public point, and input on which the
    derivation succeeds, [derivePublicKey] with [forSelf = true] differs from
    [derivePublicKey] with [forSelf = false]; for the fixed test root key and
    counterparty the two keys the TypeScript and Go programs printed differ. *)
Theorem derivePublicKey_directional (point : Type) (P : Provider point)
  (L : CurveLaws P) (root : RootIdentity point) (protocol : ProtocolDescriptor)
  (keyID : string) (Q : point) (invoiceNumber : string) (branchScalar : Z) :
  Q <> publicPoint root ->
  buildInvoiceNumber protocol keyID = Ok invoiceNumber ->
  deriveBranchScalar invoiceNumber Q = Ok branchScalar ->
  derivePublicKey root protocol keyID (OtherParty Q) true <>
    derivePublicKey root protocol keyID (OtherParty Q) false /\
  BugReport.public_key_for_self BugReport.typescript_results <>
    BugReport.public_key_not_for_self BugReport.typescript_results /\
  BugReport.public_key_for_self BugReport.go_results <>
    BugReport.public_key_not_for_self BugReport.go_results.
Proof.
  intros HQ Hinv Hdelta. split; [|split; discriminate].
  rewrite !(derivePublicKey_OtherParty _ _ _ _ _ _ _ Hinv Hdelta).
  intros [= Heq]. apply curve_add_cancel_r in Heq. now apply HQ.
Qed.

Lemma derivePublicKey_directional_witness :
  derivePublicKey Cyclic5.root Cyclic5.protocol
    (makeKeyId INITIAL_NONCE_B64 SESSION_NONCE_B64) (OtherParty r1) true <>
    derivePublicKey Cyclic5.root Cyclic5.protocol
      (makeKeyId INITIAL_NONCE_B64 SESSION_NONCE_B64) (OtherParty r1) false /\
  BugReport.public_key_for_self BugReport.typescript_results <>
    BugReport.public_key_not_for_self BugReport.typescript_results /\
  BugReport.public_key_for_self BugReport.go_results <>
    BugReport.public_key_not_for_self BugReport.go_results.
Proof.
  apply (derivePublicKey_directional _ _ cyclic5_laws Cyclic5.root
           Cyclic5.protocol (makeKeyId INITIAL_NONCE_B64 SESSION_NONCE_B64) r1
           (compute_invoice_number Cyclic5.protocol
              (makeKeyId INITIAL_NONCE_B64 SESSION_NONCE_B64)) 3);
    [discriminate|reflexivity|reflexivity].
Defined.




End Claims.

(** * Further properties of the code *)

(** ** The lenient decoder behind the helpers *)

Module DecoderFacts.
Import Base64 Lenient Base64Facts Signatures SignaturesFacts StringFacts.

Lemma decode_from_strip (s : string) (phase : nat) (hi : Z) :
  decode_from phase hi (strip s) = decode_from phase hi s.
Proof.
  revert phase hi.
  induction s as [|c rest IH]; intros phase hi; [reflexivity|].
  cbn [strip]. unfold skipped.
  destruct (unbase64 c) as [lo|] eqn:Hc.
  - cbn [decode_from]. rewrite Hc.
    destruct phase as [|[|[|phase]]]; now rewrite IH.
  - destruct (Ascii.eqb c pad) eqn:Hpad; cbn [negb decode_from].
    + now rewrite Hc, Hpad.
    + rewrite Hc, Hpad. apply IH.
Qed.

Lemma decode_from_stops_at_pad (s t : string) (phase : nat) (hi : Z) :
  decode_from phase hi (s ++ String pad t) = decode_from phase hi s.
Proof.
  revert phase hi.
  induction s as [|c rest IH]; intros phase hi; cbn [append decode_from].
  - reflexivity.
  - destruct (unbase64 c) as [lo|].
    + destruct phase as [|[|[|phase]]]; now rewrite IH.
    + destruct (Ascii.eqb c pad); [reflexivity|apply IH].
Qed.

(** Four times the bytes returned never exceed three times the characters
    read; [phase] sextets already read count for the bits they still hold. *)
Lemma decode_from_length (s : string) (phase : nat) (hi : Z) :
  (phase <= 3)%nat ->
  (4 * List.length (decode_from phase hi s) <=
   3 * String.length s + match phase with
                         | 0 => 0
                         | 1 => 3
                         | 2 => 2
                         | _ => 1
                         end)%nat.
Proof.
  revert phase hi.
  induction s as [|c rest IH]; intros phase hi Hphase;
    cbn [decode_from String.length List.length]; [lia|].
  destruct (unbase64 c) as [lo|].
  - destruct phase as [|[|[|phase]]]; cbn [List.length].
    + specialize (IH 1%nat lo ltac:(lia)). cbn beta iota in IH. lia.
    + specialize (IH 2%nat lo ltac:(lia)). cbn beta iota in IH. lia.
    + specialize (IH 3%nat lo ltac:(lia)). cbn beta iota in IH. lia.
    + specialize (IH 0%nat lo ltac:(lia)). cbn beta iota in IH. lia.
  - destruct (Ascii.eqb c pad); cbn [List.length]; [lia|].
    specialize (IH phase hi Hphase). lia.
Qed.

End DecoderFacts.

(** ** Nonce assembly beyond the fixed nonces *)

Module NonceAssembly.
Import Constants Base64 Lenient Signatures.
Import StringFacts Base64Facts SignaturesFacts DecoderFacts Utf16Facts.

Lemma firstn_length_append (A : Type) (l1 l2 : list A) :
  firstn (List.length l1) (l1 ++ l2) = l1.
Proof.
  rewrite firstn_app, Nat.sub_diag, firstn_all. cbn [firstn]. apply app_nil_r.
Qed.

Lemma skipn_length_append (A : Type) (l1 l2 : list A) :
  skipn (List.length l1) (l1 ++ l2) = l2.
Proof.
  rewrite skipn_app, Nat.sub_diag, skipn_all. reflexivity.
Qed.

Lemma append_injective (A : Type) (l1 l2 m1 m2 : list A) :
  List.length l1 = List.length m1 -> l1 ++ l2 = m1 ++ m2 -> l1 = m1 /\ l2 = m2.
Proof.
  intros Hlen Heq. split.
  - apply (f_equal (firstn (List.length l1))) in Heq.
    rewrite firstn_length_append, Hlen, firstn_length_append in Heq. exact Heq.
  - apply (f_equal (skipn (List.length l1))) in Heq.
    rewrite skipn_length_append, Hlen, skipn_length_append in Heq. exact Heq.
Qed.

(** Decode-then-concatenate checks no length: byte sequences of any length,
    the empty one included, are returned one after the other, and the result is
    as long as the two together. *)
Theorem decode_then_concatenate_any_length (bytes1 bytes2 : list Z) :
  bytes_ok bytes1 = true -> bytes_ok bytes2 = true ->
  correctSignatureDataPrep node (encode bytes1) (encode bytes2) =
    bytes1 ++ bytes2 /\
  List.length (correctSignatureDataPrep node (encode bytes1) (encode bytes2)) =
    (List.length bytes1 + List.length bytes2)%nat.
Proof.
  intros H1 H2. rewrite correctSignatureDataPrep_encode by assumption.
  split; [reflexivity|apply length_app].
Qed.

Lemma decode_then_concatenate_any_length_witness :
  correctSignatureDataPrep node (encode [1; 2; 255]) (encode []) =
    [1; 2; 255] ++ [] /\
  List.length (correctSignatureDataPrep node (encode [1; 2; 255]) (encode [])) =
    (List.length [1; 2; 255] + List.length (@nil Z))%nat.
Proof.
  apply (decode_then_concatenate_any_length [1; 2; 255] []); reflexivity.
Defined.

(** The historical defect, in general: when the first nonce's length is not a
    multiple of three its encoding ends in padding, and concatenate-then-decode
    returns the first nonce alone, whatever string follows: the data that would
    be signed does not depend on the second nonce. *)
Theorem concatenate_then_decode_drops_second (bytes1 : list Z)
  (nonce2 : string) :
  bytes_ok bytes1 = true -> (List.length bytes1 mod 3 =? 0)%nat = false ->
  buggySignatureData node (encode bytes1) nonce2 = bytes1.
Proof.
  intros H1 Hlen. unfold buggySignatureData.
  rewrite buggyBase64ToBytes_node, decode_encode_append, Hlen by assumption.
  apply app_nil_r.
Qed.

Lemma concatenate_then_decode_drops_second_witness :
  buggySignatureData node (encode INITIAL_NONCE_BYTES) "anything at all" =
  INITIAL_NONCE_BYTES.
Proof.
  apply (concatenate_then_decode_drops_second INITIAL_NONCE_BYTES
           "anything at all"); reflexivity.
Defined.

(** When the first nonce's length is a multiple of three its encoding has no
    padding, and concatenate-then-decode agrees with decode-then-concatenate
    whatever the second string: for such lengths the defect cannot be seen. *)
Theorem concatenate_then_decode_agrees_when_aligned (bytes1 : list Z)
  (nonce2 : string) :
  bytes_ok bytes1 = true -> (List.length bytes1 mod 3 =? 0)%nat = true ->
  buggySignatureData node (encode bytes1) nonce2 =
  correctSignatureDataPrep node (encode bytes1) nonce2.
Proof.
  intros H1 Hlen. unfold buggySignatureData.
  rewrite buggyBase64ToBytes_node, correctSignatureDataPrep_node.
  now rewrite decode_encode_append, Hlen, decode_encode by assumption.
Qed.

Lemma concatenate_then_decode_agrees_when_aligned_witness :
  buggySignatureData node (encode [65; 66; 67]) SESSION_NONCE_B64 =
  correctSignatureDataPrep node (encode [65; 66; 67]) SESSION_NONCE_B64.
Proof.
  apply (concatenate_then_decode_agrees_when_aligned [65; 66; 67]
           SESSION_NONCE_B64); reflexivity.
Defined.

(** The checks of the integration tests, for all nonces: the first 32 bytes of
    the signing data are the initial nonce, the rest is the session nonce, and
    the verification data is the signing data with its two halves exchanged. *)
Theorem signature_data_halves (initialNonce sessionNonce : list Z) :
  bytes_ok initialNonce = true -> bytes_ok sessionNonce = true ->
  List.length initialNonce = 32%nat -> List.length sessionNonce = 32%nat ->
  let sigData := signingData node (encode initialNonce) (encode sessionNonce) in
  let verifyData :=
    verificationData node (encode initialNonce) (encode sessionNonce) in
  firstn 32 sigData = initialNonce /\ skipn 32 sigData = sessionNonce /\
  firstn 32 verifyData = sessionNonce /\ skipn 32 verifyData = initialNonce /\
  verifyData = skipn 32 sigData ++ firstn 32 sigData.
Proof.
  intros Hi Hs Li Ls. cbv zeta. unfold signingData, verificationData.
  rewrite !correctSignatureDataPrep_encode by assumption.
  rewrite <- Li at 1 2 5 6. rewrite <- Ls at 1 2.
  now rewrite !firstn_length_append, !skipn_length_append.
Qed.

Lemma signature_data_halves_witness :
  let sigData :=
    signingData node (encode INITIAL_NONCE_BYTES) (encode SESSION_NONCE_BYTES) in
  let verifyData :=
    verificationData node (encode INITIAL_NONCE_BYTES)
      (encode SESSION_NONCE_BYTES) in
  firstn 32 sigData = INITIAL_NONCE_BYTES /\
  skipn 32 sigData = SESSION_NONCE_BYTES /\
  firstn 32 verifyData = SESSION_NONCE_BYTES /\
  skipn 32 verifyData = INITIAL_NONCE_BYTES /\
  verifyData = skipn 32 sigData ++ firstn 32 sigData.
Proof.
  apply (signature_data_halves INITIAL_NONCE_BYTES SESSION_NONCE_BYTES);
    reflexivity.
Defined.

(** The two directions give the same bytes exactly when the two nonces are
    the same. *)
Theorem signing_is_verification_iff (initialNonce sessionNonce : list Z) :
  bytes_ok initialNonce = true -> bytes_ok sessionNonce = true ->
  List.length initialNonce = List.length sessionNonce ->
  signingData node (encode initialNonce) (encode sessionNonce) =
    verificationData node (encode initialNonce) (encode sessionNonce) <->
  initialNonce = sessionNonce.
Proof.
  intros Hi Hs Hlen. unfold signingData, verificationData.
  rewrite !correctSignatureDataPrep_encode by assumption.
  split; [|now intros ->].
  intros Heq. now apply append_injective in Heq.
Qed.

Lemma signing_is_verification_iff_witness :
  signingData node (encode INITIAL_NONCE_BYTES) (encode SESSION_NONCE_BYTES) =
    verificationData node (encode INITIAL_NONCE_BYTES)
      (encode SESSION_NONCE_BYTES) <->
  INITIAL_NONCE_BYTES = SESSION_NONCE_BYTES.
Proof.
  apply (signing_is_verification_iff INITIAL_NONCE_BYTES SESSION_NONCE_BYTES);
    reflexivity.
Defined.

(** The signing data binds both nonces: two pairs of nonces whose initial
    nonces have the same length give the same data only when they are the same
    pairs. *)
Theorem signing_data_binds_nonces (initial1 session1 initial2 session2 : list Z) :
  bytes_ok initial1 = true -> bytes_ok session1 = true ->
  bytes_ok initial2 = true -> bytes_ok session2 = true ->
  List.length initial1 = List.length initial2 ->
  signingData node (encode initial1) (encode session1) =
    signingData node (encode initial2) (encode session2) ->
  initial1 = initial2 /\ session1 = session2.
Proof.
  intros Hi1 Hs1 Hi2 Hs2 Hlen. unfold signingData.
  rewrite !correctSignatureDataPrep_encode by assumption.
  now apply append_injective.
Qed.

Lemma signing_data_binds_nonces_witness :
  INITIAL_NONCE_BYTES = INITIAL_NONCE_BYTES /\
  SESSION_NONCE_BYTES = SESSION_NONCE_BYTES.
Proof.
  apply (signing_data_binds_nonces INITIAL_NONCE_BYTES SESSION_NONCE_BYTES
           INITIAL_NONCE_BYTES SESSION_NONCE_BYTES); reflexivity.
Defined.

(** Whatever the two strings, the helper returns bytes, at most three for every
    four characters it was given. *)
Theorem signature_data_is_bounded_bytes (nonce1 nonce2 : string) :
  bytes_ok (correctSignatureDataPrep node nonce1 nonce2) = true /\
  (4 * List.length (correctSignatureDataPrep node nonce1 nonce2) <=
   3 * (String.length nonce1 + String.length nonce2))%nat.
Proof.
  split; [apply correctSignatureDataPrep_bytes_ok|].
  rewrite correctSignatureDataPrep_node, length_app. unfold decode.
  pose proof (decode_from_length nonce1 0 0 ltac:(lia)) as H1.
  pose proof (decode_from_length nonce2 0 0 ltac:(lia)) as H2.
  cbn beta iota in H1, H2. lia.
Qed.

Lemma truncate_strip (data : list Z) :
  Utf16.truncate (Utf16.strip data) = strip (Utf16.truncate data).
Proof.
  unfold Utf16.strip, Utf16.unread.
  induction data as [|unit data IH]; [reflexivity|].
  cbn [filter Utf16.truncate strip].
  destruct (skipped (Utf16.low_byte unit)); cbn [negb]; [exact IH|].
  cbn [Utf16.truncate]. now rewrite IH.
Qed.

(** The decoder is lenient, also on strings with wide code units:
    removing the code units in which it reads neither a Base64 character nor
    padding changes nothing, and nothing that follows a padding character is
    read. *)
Theorem decoder_skips_and_stops (data rest : list Z) :
  Utf16.buggyBase64ToBytes (Utf16.strip data) = Utf16.buggyBase64ToBytes data /\
  Utf16.buggyBase64ToBytes (data ++ Utf16.pad_unit :: rest) =
    Utf16.buggyBase64ToBytes data.
Proof.
  unfold Utf16.buggyBase64ToBytes. rewrite !buggyBase64ToBytes_node.
  unfold decode. split.
  - rewrite truncate_strip. apply decode_from_strip.
  - rewrite truncate_app. apply decode_from_stops_at_pad.
Qed.

End NonceAssembly.

(** ** Key identifiers of encoded nonces *)

Module KeyIdOfNonces.
Import Constants KeyId Base64 StringFacts Base64Facts KeyIdFacts.

Lemma b64char_not_space (s : Z) : Ascii.eqb (b64char s) space = false.
Proof.
  unfold b64char. generalize (Z.to_nat s) as n. intros n.
  do 64 (destruct n as [|n]; [reflexivity|]).
  reflexivity.
Qed.

(** An encoding never holds a space. *)
Lemma encode_no_space (bytes : list Z) : contains_space (encode bytes) = false.
Proof.
  induction bytes as [|a|a b|a b c l IH] using list_ind3;
    cbn [encode contains_space]; rewrite ?b64char_not_space; auto.
Qed.

Lemma encode_injective (bytes1 bytes2 : list Z) :
  bytes_ok bytes1 = true -> bytes_ok bytes2 = true ->
  encode bytes1 = encode bytes2 -> bytes1 = bytes2.
Proof.
  intros H1 H2 Heq. apply (f_equal decode) in Heq.
  now rewrite !decode_encode in Heq by assumption.
Qed.

(** Without the restriction on spaces a key identifier is ambiguous: moving a
    space-separated part from the end of the first string to the start of the
    second gives the same identifier. *)
Theorem makeKeyId_ambiguous_with_spaces (a b c : string) :
  makeKeyId (makeKeyId a b) c = makeKeyId a (makeKeyId b c).
Proof.
  rewrite !makeKeyId_spec. rewrite append_assoc. reflexivity.
Qed.

(** The key identifier of two encoded nonces determines the bytes of both,
    whatever their lengths. *)
Theorem makeKeyId_determines_nonces (initial1 session1 initial2 session2 : list Z) :
  bytes_ok initial1 = true -> bytes_ok session1 = true ->
  bytes_ok initial2 = true -> bytes_ok session2 = true ->
  makeKeyId (encode initial1) (encode session1) =
    makeKeyId (encode initial2) (encode session2) ->
  initial1 = initial2 /\ session1 = session2.
Proof.
  intros Hi1 Hs1 Hi2 Hs2 Heq. rewrite !makeKeyId_spec in Heq.
  apply (f_equal split_at_space) in Heq.
  rewrite !split_at_space_append in Heq by apply encode_no_space.
  injection Heq as Hi Hs.
  split; eapply encode_injective; eassumption.
Qed.

Lemma makeKeyId_determines_nonces_witness :
  INITIAL_NONCE_BYTES = INITIAL_NONCE_BYTES /\
  SESSION_NONCE_BYTES = SESSION_NONCE_BYTES.
Proof.
  apply (makeKeyId_determines_nonces INITIAL_NONCE_BYTES SESSION_NONCE_BYTES
           INITIAL_NONCE_BYTES SESSION_NONCE_BYTES); reflexivity.
Defined.

End KeyIdOfNonces.

(** ** The Python fix recorded in the bug report *)

Module PythonFix.
Import KeyDeriver CurveFacts KeyDeriverFacts Cyclic5 Cyclic5Facts.

Section Fix.
Context {point : Type} {P : Provider point} {L : CurveLaws P}.

Lemma curve_add_cancel_l (p q r : point) :
  curve_add r p = curve_add r q -> p = q.
Proof.
  rewrite !(curve_add_comm r). apply curve_add_cancel_r.
Qed.

(** The fixed code in point form: with [for_self=True] it returns the root's
    public key moved by the branch scalar keyed on the counterparty, with
    [for_self=False] the counterparty's key moved by the same scalar; the two
    modes coincide exactly when the counterparty's key is the root's own. *)
Theorem derive_public_key_fixed_modes (self : RootIdentity point)
  (protocol : ProtocolDescriptor) (key_id : string)
  (counterparty : Counterparty point) :
  well_formed self ->
  let cp_pub := to_public_key counterparty (publicPoint self) in
  let delta := _branch_scalar (compute_invoice_number protocol key_id) cp_pub in
  derive_public_key_fixed self protocol key_id counterparty true =
    curve_add (publicPoint self) (curve_multiply_g delta) /\
  derive_public_key_fixed self protocol key_id counterparty false =
    curve_add cp_pub (curve_multiply_g delta) /\
  (derive_public_key_fixed self protocol key_id counterparty true =
     derive_public_key_fixed self protocol key_id counterparty false <->
   publicPoint self = cp_pub).
Proof.
  intros [_ Hpub]. cbv zeta. unfold derive_public_key_fixed.
  rewrite publicKeyOf_add_mod, <- Hpub.
  split; [reflexivity|]. split; [reflexivity|].
  split; [apply curve_add_cancel_r|now intros <-].
Qed.

(** What the fix changes.  Before it, the [for_self=True] key was the same for
    every counterparty; the fix leaves [for_self=False] as it was, and changes
    [for_self=True] exactly when the branch scalars keyed on the root's own key
    and on the counterparty's key give different points; for [Self] nothing
    changes. *)
Theorem derive_public_key_fix_effect (self : RootIdentity point)
  (protocol : ProtocolDescriptor) (key_id : string)
  (counterparty other : Counterparty point) :
  well_formed self ->
  let invoice_number := compute_invoice_number protocol key_id in
  let cp_pub := to_public_key counterparty (publicPoint self) in
  derive_public_key_current self protocol key_id other true =
    derive_public_key_current self protocol key_id counterparty true /\
  derive_public_key_current self protocol key_id counterparty false =
    derive_public_key_fixed self protocol key_id counterparty false /\
  (derive_public_key_current self protocol key_id counterparty true =
     derive_public_key_fixed self protocol key_id counterparty true <->
   curve_multiply_g (_branch_scalar invoice_number (publicPoint self)) =
     curve_multiply_g (_branch_scalar invoice_number cp_pub)) /\
  derive_public_key_current self protocol key_id Self true =
    derive_public_key_fixed self protocol key_id Self true.
Proof.
  intros [_ Hpub]. cbv zeta.
  unfold derive_public_key_current, derive_public_key_fixed.
  cbn [negb to_public_key]. rewrite !publicKeyOf_add_mod, <- Hpub.
  split; [reflexivity|]. split; [reflexivity|].
  split; [|reflexivity].
  split; [apply curve_add_cancel_l|now intros ->].
Qed.

End Fix.

Lemma derive_public_key_fixed_modes_witness :
  let cp_pub := to_public_key (OtherParty r2) (publicPoint root) in
  let delta := _branch_scalar (compute_invoice_number protocol "k") cp_pub in
  derive_public_key_fixed root protocol "k" (OtherParty r2) true =
    curve_add (publicPoint root) (curve_multiply_g delta) /\
  derive_public_key_fixed root protocol "k" (OtherParty r2) false =
    curve_add cp_pub (curve_multiply_g delta) /\
  (derive_public_key_fixed root protocol "k" (OtherParty r2) true =
     derive_public_key_fixed root protocol "k" (OtherParty r2) false <->
   publicPoint root = cp_pub).
Proof.
  apply (@derive_public_key_fixed_modes _ _ cyclic5_laws root protocol "k"
           (OtherParty r2)).
  exact root_well_formed.
Defined.

Lemma derive_public_key_fix_effect_witness :
  let invoice_number := compute_invoice_number protocol "k" in
  let cp_pub := to_public_key (OtherParty r2) (publicPoint root) in
  derive_public_key_current root protocol "k" Anyone true =
    derive_public_key_current root protocol "k" (OtherParty r2) true /\
  derive_public_key_current root protocol "k" (OtherParty r2) false =
    derive_public_key_fixed root protocol "k" (OtherParty r2) false /\
  (derive_public_key_current root protocol "k" (OtherParty r2) true =
     derive_public_key_fixed root protocol "k" (OtherParty r2) true <->
   curve_multiply_g (_branch_scalar invoice_number (publicPoint root)) =
     curve_multiply_g (_branch_scalar invoice_number cp_pub)) /\
  derive_public_key_current root protocol "k" Self true =
    derive_public_key_fixed root protocol "k" Self true.
Proof.
  apply (@derive_public_key_fix_effect _ _ cyclic5_laws root protocol "k"
           (OtherParty r2) Anyone).
  exact root_well_formed.
Defined.

End PythonFix.

(** ** The strict decoder of the Go tests *)

Module GoBase64Facts.
Import Base64 Base64Facts GoBase64 StringFacts.

#[local] Hint Resolve sextet1_range sextet2_range sextet3_range sextet4_range
  is_byte_0 : b64.

(** The standard alphabet is part of the alphabet Node accepts. *)
Lemma decodeMap_unbase64 (c : ascii) (v : Z) :
  decodeMap c = Some v -> unbase64 c = Some v.
Proof.
  destruct c as [[] [] [] [] [] [] [] []]; cbv;
    intros H; first [exact H | discriminate H].
Qed.

Lemma decodeMap_range (c : ascii) (v : Z) : decodeMap c = Some v -> 0 <= v < 64.
Proof. intros H. eapply unbase64_range, decodeMap_unbase64, H. Qed.

(** Node skips the newlines Go skips. *)
Lemma newline_skipped (c : ascii) :
  is_newline c = true -> unbase64 c = None /\ Ascii.eqb c pad = false.
Proof.
  destruct c as [[] [] [] [] [] [] [] []]; cbv;
    intros H; first [discriminate H | split; reflexivity].
Qed.

Lemma decodeMap_b64char (s : Z) : 0 <= s < 64 -> decodeMap (b64char s) = Some s.
Proof.
  intros Hs.
  assert (H : option_Z_eqb (decodeMap (b64char s)) s = true).
  { revert s Hs. apply sextet_cases. vm_compute. reflexivity. }
  destruct (decodeMap (b64char s)) as [v|]; simpl in H; [|discriminate].
  apply Z.eqb_eq in H. now subst.
Qed.

(** Bits that do not overlap add up. *)
Lemma lor_pow2_add (x y k : Z) :
  0 <= k -> 0 <= y < 2 ^ k -> Z.lor (x * 2 ^ k) y = x * 2 ^ k + y.
Proof.
  intros Hk Hy.
  assert (Hland : Z.land (x * 2 ^ k) y = 0).
  { apply Z.bits_inj'. intros n Hn. rewrite Z.land_spec, Z.bits_0.
    destruct (Z.lt_ge_cases n k) as [Hlt|Hge].
    - now rewrite Z.mul_pow2_bits_low.
    - rewrite <- (Z.mod_small y (2 ^ k)) by assumption.
      rewrite Z.mod_pow2_bits_high by lia. apply andb_false_r. }
  now rewrite <- Z.lxor_lor, <- Z.add_nocarry_lxor.
Qed.

Lemma assemble_arith (d0 d1 d2 d3 : Z) :
  0 <= d0 < 64 -> 0 <= d1 < 64 -> 0 <= d2 < 64 -> 0 <= d3 < 64 ->
  assemble [d0; d1; d2; d3] = d0 * 262144 + d1 * 4096 + d2 * 64 + d3.
Proof.
  intros H0 H1 H2 H3. unfold assemble. cbn [nth].
  rewrite !Z.shiftl_mul_pow2 by lia.
  rewrite (lor_pow2_add d0 (d1 * 2 ^ 12) 18) by lia.
  replace (d0 * 2 ^ 18 + d1 * 2 ^ 12) with ((d0 * 64 + d1) * 2 ^ 12) by lia.
  rewrite (lor_pow2_add _ (d2 * 2 ^ 6) 12) by lia.
  replace ((d0 * 64 + d1) * 2 ^ 12 + d2 * 2 ^ 6)
    with (((d0 * 64 + d1) * 64 + d2) * 2 ^ 6) by lia.
  rewrite (lor_pow2_add _ d3 6) by lia.
  lia.
Qed.

(** The bytes Go writes for a quantum are the bytes Node emits for the same
    sextets. *)
Lemma convert_bytes (d0 d1 d2 d3 : Z) :
  0 <= d0 < 64 -> 0 <= d1 < 64 -> 0 <= d2 < 64 -> 0 <= d3 < 64 ->
  convert 4 [d0; d1; d2; d3] = [byte1 d0 d1; byte2 d1 d2; byte3 d2 d3] /\
  convert 3 [d0; d1; d2] = [byte1 d0 d1; byte2 d1 d2] /\
  convert 2 [d0; d1] = [byte1 d0 d1].
Proof.
  intros H0 H1 H2 H3.
  assert (Hz : 0 <= 0 < 64) by lia.
  unfold convert.
  change (assemble [d0; d1; d2]) with (assemble [d0; d1; d2; 0]).
  change (assemble [d0; d1]) with (assemble [d0; d1; 0; 0]).
  rewrite !assemble_arith, !Z.shiftr_div_pow2 by lia.
  rewrite byte1_arith, byte2_arith, byte3_arith by assumption.
  change (2 ^ 16) with 65536. change (2 ^ 8) with 256. change (2 ^ 0) with 1.
  repeat split;
    repeat match goal with
           | |- cons _ _ = cons _ _ => apply f_equal2
           end;
    try reflexivity; Z.div_mod_to_equations; lia.
Qed.

(** After complete padding the bytes of the last quantum are returned, with an
    error exactly when something other than newlines follows. *)
Lemma run_Trailing (dlen : nat) (dbuf : list Z) (si : nat) (rest : string) :
  run (Trailing dlen dbuf) si rest = (convert dlen dbuf, trailing_error si rest).
Proof.
  revert si. induction rest as [|c rest IH]; intros si; cbn [run trailing_error].
  - reflexivity.
  - destruct (is_newline c); [apply IH|reflexivity].
Qed.

Lemma run_sextet (dbuf : list Z) (si : nat) (s : Z) (rest : string) :
  0 <= s < 64 ->
  run (Quantum dbuf) si (String (b64char s) rest) =
  if (List.length dbuf =? 3)%nat then
    let (bytes, err) := run (Quantum []) (S si) rest in
    (convert 4 (dbuf ++ [s]) ++ bytes, err)
  else run (Quantum (dbuf ++ [s])) (S si) rest.
Proof. intros Hs. cbn [run]. now rewrite decodeMap_b64char. Qed.

(** Decoding an encoding followed by more text.  When the encoding has no
    padding the decoder goes on with the text; when it ends in padding the
    encoded bytes are returned, with an error if anything but newlines
    follows. *)
Lemma run_encode_append (bytes : list Z) (rest : string) (si : nat) :
  bytes_ok bytes = true ->
  run (Quantum []) si (encode bytes ++ rest) =
  if (List.length bytes mod 3 =? 0)%nat then
    let (out, err) :=
      run (Quantum []) (si + String.length (encode bytes)) rest in
    (bytes ++ out, err)
  else (bytes, trailing_error (si + String.length (encode bytes)) rest).
Proof.
  revert si. unfold bytes_ok.
  induction bytes as [|a|a b|a b c l IH] using list_ind3;
    intros si Hok; cbn [forallb encode append] in *;
    rewrite ?andb_true_iff, ?is_byteb_spec in Hok.
  - cbn. rewrite Nat.add_0_r. now destruct (run (Quantum []) si rest).
  - destruct Hok as [Ha _].
    rewrite !run_sextet by auto with b64. cbn [List.length Nat.eqb app].
    cbn [run]. change (decodeMap pad) with (@None Z).
    cbn [is_newline negb List.length]. cbn -[convert trailing_error].
    rewrite run_Trailing.
    destruct (convert_bytes (sextet1 a) (sextet2 a 0) 0 0) as (_ & _ & ->);
      auto with b64; try lia.
    rewrite byte1_sextets by auto with b64.
    do 2 f_equal. f_equal. lia.
  - destruct Hok as (Ha & Hb & _).
    rewrite !run_sextet by auto with b64. cbn [List.length Nat.eqb app].
    cbn -[convert trailing_error]. rewrite run_Trailing.
    destruct (convert_bytes (sextet1 a) (sextet2 a b) (sextet3 b 0) 0)
      as (_ & -> & _); auto with b64; try lia.
    rewrite byte1_sextets, (byte2_sextets a b 0) by auto with b64.
    do 2 f_equal. f_equal. lia.
  - destruct Hok as (Ha & Hb & Hc & Hl).
    rewrite !run_sextet by auto with b64. cbn [List.length Nat.eqb app].
    rewrite IH by assumption.
    destruct (convert_bytes (sextet1 a) (sextet2 a b) (sextet3 b c) (sextet4 c))
      as (-> & _); auto with b64.
    rewrite byte1_sextets, (byte2_sextets a b c), byte3_sextets by assumption.
    replace (S (S (S (List.length l)))) with (List.length l + 1 * 3)%nat by lia.
    rewrite Nat.Div0.mod_add. cbn [String.length].
    replace (S (S (S (S si))) + String.length (encode l))%nat
      with (si + S (S (S (S (String.length (encode l))))))%nat by lia.
    destruct (_ =? 0)%nat; [|reflexivity].
    now destruct (run (Quantum []) _ rest).
Qed.

End GoBase64Facts.

(** ** Go and TypeScript on the same strings *)

Module CrossLanguageFacts.
Import Constants Base64 Base64Facts GoBase64 GoBase64Facts GoSignatures.
Import Signatures SignaturesFacts CrossLanguage StringFacts.

(** A character Go rejects is an error wherever the decoder stands. *)
Lemma run_illegal (s : string) :
  has_illegal s = true -> forall st si, snd (run st si s) <> None.
Proof.
  induction s as [|c rest IH]; cbn [has_illegal]; [discriminate|].
  intros H st si. unfold illegal in H. cbn [run].
  destruct st as [dbuf|dbuf|dlen dbuf].
  - destruct (decodeMap c) as [out|].
    + cbn [orb] in H.
      destruct (List.length dbuf =? 3)%nat; [|now apply IH].
      specialize (IH H (Quantum []) (S si)).
      now destruct (run (Quantum []) (S si) rest).
    + destruct (is_newline c); [now apply IH|].
      destruct (Ascii.eqb c pad); cbn [negb andb orb] in *; [|discriminate].
      destruct (List.length dbuf) as [|[|[|n]]];
        try discriminate; now apply IH.
  - destruct (is_newline c).
    + apply IH. destruct (decodeMap c); exact H.
    + destruct (Ascii.eqb c pad); cbn [negb]; [|discriminate].
      apply IH. destruct (decodeMap c); exact H.
  - destruct (is_newline c); [|discriminate].
    apply IH. destruct (decodeMap c); exact H.
Qed.

Lemma run_SecondPad_ok (s : string) (dbuf : list Z) (si : nat) (out : list Z) :
  run (SecondPad dbuf) si s = (out, None) -> out = convert 2 dbuf.
Proof.
  revert si. induction s as [|c rest IH]; intros si; cbn [run]; [discriminate|].
  destruct (is_newline c); [apply IH|].
  destruct (Ascii.eqb c pad); cbn [negb]; [|discriminate].
  rewrite run_Trailing. now intros [= <- _].
Qed.

Ltac sextets :=
  repeat first [assumption | apply Forall_nil | apply Forall_cons].

(** Whenever Go decodes from inside a quantum without an error, Node, having
    read the same sextets, returns the same bytes. *)
Lemma run_agrees (s : string) (dbuf : list Z) (si : nat) (out : list Z) :
  Forall is_sextet dbuf -> (List.length dbuf <= 3)%nat ->
  run (Quantum dbuf) si s = (out, None) ->
  emitted dbuf ++ decode_from (List.length dbuf) (last dbuf 0) s = out.
Proof.
  revert dbuf si out.
  induction s as [|c rest IH]; intros dbuf si out Hsext Hlen.
  - cbn [run decode_from]. destruct dbuf; [|discriminate].
    now intros [= <-].
  - cbn [run decode_from].
    destruct (decodeMap c) as [v|] eqn:Hc.
    + pose proof (decodeMap_range c v Hc) as Hv.
      rewrite (decodeMap_unbase64 c v Hc).
      destruct dbuf as [|d0 [|d1 [|d2 [|d3 t]]]];
        cbn [List.length Nat.eqb app emitted last] in *; try lia.
      * intros H.
        apply (IH [v] (S si) out); [sextets|cbn; lia|exact H].
      * intros H.
        apply (IH [d0; v] (S si) out); [|cbn; lia|exact H].
        inversion Hsext; subst. sextets.
      * intros H.
        apply (IH [d0; d1; v] (S si) out); [|cbn; lia|exact H].
        inversion Hsext as [|? ? H0 Hs1]; subst.
        inversion Hs1; subst. sextets.
      * inversion Hsext as [|? ? H0 Hs1]; subst.
        inversion Hs1 as [|? ? H1 Hs2]; subst.
        inversion Hs2 as [|? ? H2 _]; subst.
        destruct (run (Quantum []) (S si) rest) as [bytes err] eqn:Hrun.
        intros [= <- ->].
        apply IH in Hrun; [|constructor|cbn; lia].
        cbn [emitted app List.length last] in Hrun.
        rewrite decode_from_0 in *. rewrite Hrun.
        destruct (convert_bytes d0 d1 d2 v H0 H1 H2 Hv) as (Hconv & _).
        unfold convert in Hconv. injection Hconv as -> -> ->. reflexivity.
    + destruct (is_newline c) eqn:Hnl.
      * destruct (newline_skipped c Hnl) as [-> ->]. now apply IH.
      * destruct (Ascii.eqb c pad) eqn:Hpad; cbn [negb]; [|discriminate].
        apply Ascii.eqb_eq in Hpad. subst c.
        change (unbase64 pad) with (@None Z). cbn [Ascii.eqb Bool.eqb pad].
        destruct dbuf as [|d0 [|d1 [|d2 [|d3 t]]]];
          cbn [List.length emitted] in *; try discriminate; try lia.
        -- intros H. apply run_SecondPad_ok in H. subst out.
           inversion Hsext as [|? ? H0 Hs1]; subst.
           inversion Hs1 as [|? ? H1 _]; subst.
           destruct (convert_bytes d0 d1 0 0) as (_ & _ & ->);
             unfold is_sextet in *; try lia.
           reflexivity.
        -- rewrite run_Trailing. intros [= <- _].
           inversion Hsext as [|? ? H0 Hs1]; subst.
           inversion Hs1 as [|? ? H1 Hs2]; subst.
           inversion Hs2 as [|? ? H2 _]; subst.
           destruct (convert_bytes d0 d1 d2 0) as (_ & Hconv & _);
             unfold is_sextet in *; try lia.
           unfold convert in Hconv. injection Hconv as -> ->. reflexivity.
Qed.

Lemma DecodeString_agrees (s : string) (bytes : list Z) :
  DecodeString s = (bytes, None) -> decode s = bytes.
Proof.
  intros H. apply run_agrees in H; [exact H|constructor|cbn; lia].
Qed.

End CrossLanguageFacts.

(** ** The Go tests and the TypeScript helpers *)

Module GoTests.
Import Constants Base64 Base64Facts GoBase64 GoBase64Facts GoSignatures.
Import Signatures SignaturesFacts CrossLanguage CrossLanguageFacts StringFacts.

Lemma b64char_not_newline (s : Z) : is_newline (b64char s) = false.
Proof.
  unfold b64char. generalize (Z.to_nat s) as n. intros n.
  do 64 (destruct n as [|n]; [reflexivity|]).
  reflexivity.
Qed.

Lemma trailing_error_encode (bytes : list Z) (si : nat) :
  bytes <> [] -> trailing_error si (encode bytes) = Some (CorruptInputError si).
Proof.
  destruct bytes as [|a [|b [|c l]]]; [congruence| | |]; intros _;
    cbn [encode trailing_error]; now rewrite b64char_not_newline.
Qed.

(** The nonce decoding test, for all byte sequences: the strict decoder returns
    the bytes of every standard encoding, without an error. *)
Theorem DecodeString_encode (bytes : list Z) :
  bytes_ok bytes = true -> DecodeString (encode bytes) = (bytes, None).
Proof.
  intros Hok. unfold DecodeString.
  rewrite <- (append_empty_r (encode bytes)).
  rewrite run_encode_append by assumption.
  destruct (_ =? 0)%nat; cbn [run trailing_error]; [|reflexivity].
  now rewrite app_nil_r.
Qed.

Lemma DecodeString_encode_witness :
  DecodeString (encode INITIAL_NONCE_BYTES) = (INITIAL_NONCE_BYTES, None).
Proof. apply (DecodeString_encode INITIAL_NONCE_BYTES). reflexivity. Defined.

(** Go and TypeScript prepare the same signature data from the encodings of any
    two byte sequences. *)
Theorem sigData_matches_typescript (initialNonce sessionNonce : list Z) :
  bytes_ok initialNonce = true -> bytes_ok sessionNonce = true ->
  sigData (encode initialNonce) (encode sessionNonce) =
    inl (initialNonce ++ sessionNonce) /\
  sigData (encode initialNonce) (encode sessionNonce) =
    inl (correctSignatureDataPrep node (encode initialNonce)
           (encode sessionNonce)).
Proof.
  intros Hi Hs. rewrite correctSignatureDataPrep_encode by assumption.
  unfold sigData. rewrite !DecodeString_encode by assumption.
  split; reflexivity.
Qed.

Lemma sigData_matches_typescript_witness :
  sigData (encode INITIAL_NONCE_BYTES) (encode SESSION_NONCE_BYTES) =
    inl (INITIAL_NONCE_BYTES ++ SESSION_NONCE_BYTES) /\
  sigData (encode INITIAL_NONCE_BYTES) (encode SESSION_NONCE_BYTES) =
    inl (correctSignatureDataPrep node (encode INITIAL_NONCE_BYTES)
           (encode SESSION_NONCE_BYTES)).
Proof.
  apply (sigData_matches_typescript INITIAL_NONCE_BYTES SESSION_NONCE_BYTES);
    reflexivity.
Defined.

(** Whatever the two strings, when the Go test obtains signature data the
    TypeScript helper returns the same bytes: Node decodes every string Go
    accepts, and to the same bytes. *)
Theorem sigData_accepted_matches_typescript (nonce1 nonce2 : string)
  (data : list Z) :
  sigData nonce1 nonce2 = inl data ->
  correctSignatureDataPrep node nonce1 nonce2 = data.
Proof.
  unfold sigData. rewrite correctSignatureDataPrep_node.
  destruct (DecodeString nonce1) as [bytes1 [e1|]] eqn:H1; [discriminate|].
  destruct (DecodeString nonce2) as [bytes2 [e2|]] eqn:H2; [discriminate|].
  intros [= <-].
  now rewrite (DecodeString_agrees _ _ H1), (DecodeString_agrees _ _ H2).
Qed.

Lemma sigData_accepted_matches_typescript_witness :
  correctSignatureDataPrep node INITIAL_NONCE_B64 SESSION_NONCE_B64 =
  EXPECTED_SIG_DATA_SIGNING.
Proof.
  apply (sigData_accepted_matches_typescript INITIAL_NONCE_B64 SESSION_NONCE_B64
           EXPECTED_SIG_DATA_SIGNING).
  reflexivity.
Defined.

(** The Go test stops with an error as soon as one of the two strings holds a
    character that is neither of the standard alphabet, nor a newline, nor
    padding: the characters the TypeScript helper passes over in silence. *)
Theorem sigData_rejects_illegal_characters (nonce1 nonce2 : string) :
  has_illegal nonce1 || has_illegal nonce2 = true ->
  exists e, sigData nonce1 nonce2 = inr e.
Proof.
  intros H. unfold sigData, DecodeString.
  pose proof (fun Hill => run_illegal nonce1 Hill (Quantum []) 0%nat) as H1.
  pose proof (fun Hill => run_illegal nonce2 Hill (Quantum []) 0%nat) as H2.
  destruct (run (Quantum []) 0 nonce1) as [bytes1 [e1|]]; [now exists e1|].
  destruct (run (Quantum []) 0 nonce2) as [bytes2 [e2|]]; [now exists e2|].
  apply orb_true_iff in H as [H|H]; [now apply H1 in H|now apply H2 in H].
Qed.

Lemma sigData_rejects_illegal_characters_witness :
  exists e, sigData "!!!!" SESSION_NONCE_B64 = inr e.
Proof.
  apply (sigData_rejects_illegal_characters "!!!!" SESSION_NONCE_B64).
  reflexivity.
Defined.

(** The incorrect approach in Go: when the first nonce's encoding ends in
    padding, decoding the concatenation reports the first character of the
    second encoding as corrupt input and returns the first nonce alone; with
    the error dropped, as the test drops it, these are the bytes the TypeScript
    defect signed. *)
Theorem incorrectSigData_is_first_nonce (bytes1 bytes2 : list Z) :
  bytes_ok bytes1 = true -> (List.length bytes1 mod 3 =? 0)%nat = false ->
  bytes2 <> [] ->
  DecodeString (encode bytes1 ++ encode bytes2) =
    (bytes1, Some (CorruptInputError (String.length (encode bytes1)))) /\
  incorrectSigData (encode bytes1) (encode bytes2) = bytes1 /\
  incorrectSigData (encode bytes1) (encode bytes2) =
    buggySignatureData node (encode bytes1) (encode bytes2).
Proof.
  intros H1 Hlen H2.
  assert (Hdec : DecodeString (encode bytes1 ++ encode bytes2) =
            (bytes1, Some (CorruptInputError (String.length (encode bytes1))))).
  { unfold DecodeString. rewrite run_encode_append, Hlen by assumption.
    now rewrite trailing_error_encode. }
  split; [exact Hdec|]. unfold incorrectSigData. rewrite Hdec. cbn [fst].
  split; [reflexivity|].
  now rewrite buggySignatureData_encode.
Qed.

Lemma incorrectSigData_is_first_nonce_witness :
  DecodeString (encode INITIAL_NONCE_BYTES ++ encode SESSION_NONCE_BYTES) =
    (INITIAL_NONCE_BYTES,
     Some (CorruptInputError (String.length (encode INITIAL_NONCE_BYTES)))) /\
  incorrectSigData (encode INITIAL_NONCE_BYTES) (encode SESSION_NONCE_BYTES) =
    INITIAL_NONCE_BYTES /\
  incorrectSigData (encode INITIAL_NONCE_BYTES) (encode SESSION_NONCE_BYTES) =
    buggySignatureData node (encode INITIAL_NONCE_BYTES)
      (encode SESSION_NONCE_BYTES).
Proof.
  apply (incorrectSigData_is_first_nonce INITIAL_NONCE_BYTES SESSION_NONCE_BYTES);
    [reflexivity|reflexivity|discriminate].
Defined.

End GoTests.
